(** * The in-process metrics store (src/utils/metricsStore.js)

    A shallow embedding of the [MetricsStore] class and the properties of
    its request counters, bounded buffers, derived statistics and health
    verdict.

    Numbers.  Every number the store handles in operation is an integer:
    status codes, latencies ([Date.now()] differences, in ms), counters and
    array lengths.  They are modelled as [Z], which is what the doubles of
    the source amount to while the integers formed stay below 2^53; the
    only other value the store holds is [Infinity], the initial
    [minResponseTime].  The range of the model is: latencies of magnitude
    at most [latency_bound] = 2^42 ms and request counts of at most
    [counter_bound] = 2^44.  The two divisions of the source are followed
    by [Math.round], and the range is what makes their integer formulas
    right:
    - [Math.round(total / length)] is modelled by [Math_round_div], the
      exact quotient rounded half up.  The buffer holds at most 1000
      latencies, so that in range the sum is below 2^52 and exact; the
      quotient is below 2^43, where doubles are less than 1/1000 apart, and
      a quotient by [n ≤ 1000] that does not end in .5 is at least
      [1/(2 n)] away from ending so.  Beyond the range the double
      computation differs ([average_beyond_latency_bound]); it is
      [average_in_doubles].
    - [Math.round((success / total) * 100)] rounds twice before
      [Math.round], which matters when the exact percentage ends in .5:
      57.5 comes out as 57.49999999999999 and is rounded to 57.  Those cases
      are decided with the binary64 operations of the Standard Library
      ([SpecFloat]).  In range the two roundings move the percentage by
      less than 2^-46 and a percentage that does not end in .5 is at least
      2^-45 away from ending so; beyond the range [Math_round_percent] is
      the binary64 computation itself.

    Time.  [new Date()] is an input of the operations that read the clock.
    A request timestamp is represented by the epoch milliseconds that
    [new Date(req.timestamp)] yields, [None] standing for an invalid date
    (whose comparisons are all false).  A [Date] made from a number is
    invalid when the number is more than 8.64e15 ms away from the epoch
    ([new_Date]). *)

From Stdlib Require Import ZArith Lia Bool DecimalString SpecFloat.
From stdpp Require Import base list strings.

Open Scope Z_scope.

(** ** Data model *)

(** A JS number that is either an integer or [Infinity]. *)
Inductive jsnum :=
  | Num (z : Z)
  | Infinity.

(** [x < y] for an integer [x] and a possibly infinite [y]. *)
Definition js_lt (x : Z) (y : jsnum) : bool :=
  match y with
  | Num z => x <? z
  | Infinity => true
  end.

(** [this.metrics.requests] *)
Record Requests := mkRequests {
  total : Z;
  success : Z;
  errors : Z;
  perMinute : Z;
  peakRPM : Z
}.

(** [this.metrics.performance] *)
Record Performance := mkPerformance {
  responseTimes : list Z;
  averageResponseTime : Z;
  minResponseTime : jsnum;
  maxResponseTime : Z
}.

(** The argument of [recordRequest]. *)
Record RequestData := mkRequestData {
  statusCode : Z;
  responseTime : Z;
  method : string;
  path : string;
  timestamp : option Z;
  ip : option string;
  userAgent : option string
}.

(** An entry of [this.metrics.recentRequests]. *)
Record RecentRequest := mkRecentRequest {
  rr_method : string;
  rr_path : string;
  rr_statusCode : Z;
  rr_responseTime : Z;
  rr_timestamp : option Z;
  rr_ip : string
}.

(** [this.metrics] *)
Record Metrics := mkMetrics {
  requests : Requests;
  performance : Performance;
  recentRequests : list RecentRequest
}.

(** ** JS primitives used by the store *)

(** The range of the model: the greatest magnitude of a latency and the
    greatest request count for which the integer formulas below are what
    the source computes in binary64. *)
Definition latency_bound : Z := 2 ^ 42.
Definition counter_bound : Z := 2 ^ 44.

(** [Math.round (a / b)] for integers [a] and [b > 0]: the nearest integer,
    halves going up.  It is the result of the binary64 division followed by
    [Math.round] when [b ≤ 1000] and [a] is a sum of [b] latencies in
    range, so that [a / b] is below 2^43 in magnitude. *)
Definition Math_round_div (a b : Z) : Z := (2 * a + b) / (2 * b).

(** The double nearest to an integer: the integer itself below 2^53. *)
Definition double_of_Z (z : Z) : spec_float := binary_normalize 53 1024 z 0 false.

(** [Math.round] of a double: the integer [floor (x + 1/2)]. *)
Definition Math_round (x : spec_float) : Z :=
  match x with
  | S754_finite s m e =>
      let v := if s then Z.neg m else Z.pos m in
      if 0 <=? e then v * 2 ^ e else (2 * v + 2 ^ (- e)) / 2 ^ (1 - e)
  | _ => 0
  end.

(** [Math.round(a / b)] computed in binary64. *)
Definition quotient_in_doubles (a b : Z) : Z :=
  Math_round (SFdiv 53 1024 (double_of_Z a) (double_of_Z b)).

(** [Math.round((a / b) * 100)] computed in binary64. *)
Definition percent_in_doubles (a b : Z) : Z :=
  Math_round (SFmul 53 1024 (SFdiv 53 1024 (double_of_Z a) (double_of_Z b))
                            (double_of_Z 100)).

(** The integer [k] nearest to [100 a / b], for [b > 0], as the double
    computation finds it for counts in range.  When [100 a / b] is exactly
    [k - 1/2], the quotient [a / b] is the double nearest to
    [(2 k - 1) / 200], and whether its product with 100 reaches [k - 1/2]
    is found by computing with that fraction.  Otherwise [100 a / b] is at
    least [1 / (2 b)] away from such a value, which the two roundings do
    not bridge while [b ≤ counter_bound]. *)
Definition percent_closed_form (a b : Z) : Z :=
  let k := (200 * a + b) / (2 * b) in
  if (200 * a + b) mod (2 * b) =? 0
  then (if percent_in_doubles (2 * k - 1) 200 <? k then k - 1 else k)
  else k.

(** [0 ≤ a ≤ b ≤ counter_bound] *)
Definition counts_in_range (a b : Z) : bool :=
  (0 <=? a) && (a <=? b) && (b <=? counter_bound).

(** [Math.round((a / b) * 100)] for integers [a] and [b > 0]: the closed
    form for counts in range, and the binary64 computation beyond it. *)
Definition Math_round_percent (a b : Z) : Z :=
  if counts_in_range a b then percent_closed_form a b else percent_in_doubles a b.

(** [arr.slice(-n)]: the last [n] elements. *)
Definition slice_last {A} (n : nat) (l : list A) : list A :=
  drop (length l - n) l.

(** [arr.slice(0, n)]: the first [n] elements. *)
Definition slice_first {A} (n : nat) (l : list A) : list A := take n l.

(** [arr.reduce((sum, time) => sum + time, 0)] *)
Definition sum_times (l : list Z) : Z := fold_left Z.add l 0.

(** The same sum, and [Math.round(total / arr.length)], computed in
    binary64. *)
Definition sum_in_doubles (l : list Z) : spec_float :=
  fold_left (fun sum time => SFadd 53 1024 sum (double_of_Z time)) l (double_of_Z 0).

Definition average_in_doubles (l : list Z) : Z :=
  Math_round (SFdiv 53 1024 (sum_in_doubles l) (double_of_Z (Z.of_nat (length l)))).

(** [ip?.substring(0, 10) + '...']; an absent [ip] makes the left operand
    [undefined], which [+] prints. *)
Definition truncate_ip (ip : option string) : string :=
  match ip with
  | Some s => String.substring 0 10 s +:+ "..."
  | None => "undefined..."
  end.

(** ** The store *)

(** The value the constructor assigns to [this.metrics].  (The timer it
    starts outside the test environment only ever calls
    [calculateRequestsPerMinute]; [intervalId] is not part of the metrics.) *)
Definition constructor : Metrics :=
  {| requests := {| total := 0; success := 0; errors := 0;
                    perMinute := 0; peakRPM := 0 |};
     performance := {| responseTimes := [];
                       averageResponseTime := 0;
                       minResponseTime := Infinity;
                       maxResponseTime := 0 |};
     recentRequests := [] |}.

(** [statusCode >= 200 && statusCode < 400] *)
Definition isSuccess (code : Z) : bool := (200 <=? code) && (code <? 400).

Definition recentRequest_of (d : RequestData) : RecentRequest :=
  {| rr_method := method d;
     rr_path := path d;
     rr_statusCode := statusCode d;
     rr_responseTime := responseTime d;
     rr_timestamp := timestamp d;
     rr_ip := truncate_ip (ip d) |}.

(** The counter updates of [recordRequest]: [total++], then [success++] or
    [errors++]. *)
Definition count_request (rq : Requests) (d : RequestData) : Requests :=
  {| total := total rq + 1;
     success := if isSuccess (statusCode d) then success rq + 1 else success rq;
     errors := if isSuccess (statusCode d) then errors rq else errors rq + 1;
     perMinute := perMinute rq;
     peakRPM := peakRPM rq |}.

(** [push], then the cut to the last 1000 response times. *)
Definition push_time (times : list Z) (t : Z) : list Z :=
  let pushed := times ++ [t] in
  if (1000 <? length pushed)%nat then slice_last 1000 pushed else pushed.

Definition update_min (t : Z) (mn : jsnum) : jsnum :=
  if js_lt t mn then Num t else mn.

Definition update_max (t : Z) (mx : Z) : Z :=
  if mx <? t then t else mx.

(** [Math.round(total / responseTimes.length)], for latencies in range. *)
Definition average (times : list Z) : Z :=
  Math_round_div (sum_times times) (Z.of_nat (length times)).

(** [unshift], then the cut to the first 50 requests. *)
Definition unshift_recent (rs : list RecentRequest) (r : RecentRequest) : list RecentRequest :=
  let unshifted := r :: rs in
  if (50 <? length unshifted)%nat then slice_first 50 unshifted else unshifted.

Definition recordRequest (m : Metrics) (d : RequestData) : Metrics :=
  let pf := performance m in
  let times := push_time (responseTimes pf) (responseTime d) in
  {| requests := count_request (requests m) d;
     performance := {| responseTimes := times;
                       averageResponseTime := average times;
                       minResponseTime := update_min (responseTime d) (minResponseTime pf);
                       maxResponseTime := update_max (responseTime d) (maxResponseTime pf) |};
     recentRequests := unshift_recent (recentRequests m) (recentRequest_of d) |}.

(** [requestTime >= oneMinuteAgo], with [oneMinuteAgo = now - 60000]. *)
Definition inLastMinute (now : Z) (r : RecentRequest) : bool :=
  match rr_timestamp r with
  | Some t => now - 60000 <=? t
  | None => false
  end.

(** The two assignments of [calculateRequestsPerMinute], given the filtered
    array's length. *)
Definition set_perMinute (rq : Requests) (n : Z) : Requests :=
  {| total := total rq; success := success rq; errors := errors rq;
     perMinute := n;
     peakRPM := if peakRPM rq <? n then n else peakRPM rq |}.

Definition calculateRequestsPerMinute (now : Z) (m : Metrics) : Metrics :=
  let recent := filter (fun r => inLastMinute now r = true) (recentRequests m) in
  {| requests := set_perMinute (requests m) (Z.of_nat (length recent));
     performance := performance m;
     recentRequests := recentRequests m |}.

(** [getMetrics]: the fields of [this.metrics] and the clock's ISO string.
    The store is not updated.  (Which objects the result shares with the
    store is the subject of module [Heap] below.) *)
Definition getMetrics (iso : string) (m : Metrics) : Metrics * string := (m, iso).

Definition resetMetrics (m : Metrics) : Metrics :=
  {| requests := {| total := 0; success := 0; errors := 0;
                    perMinute := 0; peakRPM := 0 |};
     performance := {| responseTimes := [];
                       averageResponseTime := 0;
                       minResponseTime := Infinity;
                       maxResponseTime := 0 |};
     recentRequests := [] |}.

Record HealthSummary := mkHealthSummary {
  healthy : bool;
  successRate : Z;
  hs_averageResponseTime : Z;
  totalRequests : Z;
  hs_errors : Z
}.

Definition getHealthSummary (m : Metrics) : HealthSummary :=
  let totalRequests := total (requests m) in
  let successRate :=
    if 0 <? totalRequests
    then Math_round_percent (success (requests m)) totalRequests
    else 100 in
  {| healthy := (95 <=? successRate) && (averageResponseTime (performance m) <? 1000);
     successRate := successRate;
     hs_averageResponseTime := averageResponseTime (performance m);
     totalRequests := totalRequests;
     hs_errors := errors (requests m) |}.

(** The store after a sequence of [recordRequest] calls on a new store. *)
Definition record_all (ds : list RequestData) : Metrics :=
  fold_left recordRequest ds constructor.

(** The result of [getMetricsForPeriod]. *)
Record PeriodSummary := mkPeriodSummary {
  ps_period : string;
  ps_requests : Z;
  ps_success : Z;
  ps_errors : Z;
  ps_successRate : Z;
  ps_timestamp : string
}.

(** The time values of valid dates: at most 8.64e15 ms from the epoch. *)
Definition max_time : Z := 8640000000000000.

(** The time value of [new Date(value)] for an integer [value]; [None] is
    the [NaN] of an invalid date. *)
Definition new_Date (value : Z) : option Z :=
  if (- max_time <=? value) && (value <=? max_time) then Some value else None.

(** [requestTime >= periodAgo], with
    [periodAgo = new Date(now.getTime() - (minutes * 60000))]; the
    comparison is false when either date is invalid. *)
Definition inPeriod (now minutes : Z) (r : RecentRequest) : bool :=
  match rr_timestamp r, new_Date (now - minutes * 60000) with
  | Some requestTime, Some periodAgo => periodAgo <=? requestTime
  | _, _ => false
  end.

(** [getMetricsForPeriod(minutes)], for a whole number of minutes and the
    time [now] of a valid date. *)
Definition getMetricsForPeriod (now : Z) (iso : string) (minutes : Z) (m : Metrics)
  : PeriodSummary :=
  let periodRequests := filter (fun r => inPeriod now minutes r = true) (recentRequests m) in
  let periodSuccess :=
    Z.of_nat (length (filter (fun r => isSuccess (rr_statusCode r) = true) periodRequests)) in
  let periodErrors :=
    Z.of_nat (length (filter (fun r => (400 <=? rr_statusCode r) = true) periodRequests)) in
  let n := Z.of_nat (length periodRequests) in
  {| ps_period := NilEmpty.string_of_int (Z.to_int minutes) +:+ " minutes";
     ps_requests := n;
     ps_success := periodSuccess;
     ps_errors := periodErrors;
     ps_successRate := if 0 <? n then Math_round_percent periodSuccess n else 100;
     ps_timestamp := iso |}.

(** ** The store as a state machine

    The methods of the class that touch [this.metrics], as the operations a
    client can invoke; [step] gives the store after an operation. *)
Inductive op :=
  | RecordRequest (d : RequestData)
  | CalculateRequestsPerMinute (now : Z)
  | GetMetrics (iso : string)
  | ResetMetrics
  | GetHealthSummary
  | GetMetricsForPeriod (now : Z) (iso : string) (minutes : Z).

Definition step (m : Metrics) (o : op) : Metrics :=
  match o with
  | RecordRequest d => recordRequest m d
  | CalculateRequestsPerMinute now => calculateRequestsPerMinute now m
  | GetMetrics iso => fst (getMetrics iso m)
  | ResetMetrics => resetMetrics m
  | GetHealthSummary => m
  | GetMetricsForPeriod _ _ _ => m
  end.

Definition run (os : list op) : Metrics := fold_left step os constructor.

Definition is_reset (o : op) : bool :=
  match o with ResetMetrics => true | _ => false end.

(** ** The store with its object graph

    [this.metrics] is an object whose fields refer to further objects and
    arrays; [push] and [unshift] update an array in place, [slice] and the
    object literals create new ones, and [getMetrics] hands references out.
    This module keeps the objects in a heap, so that sharing is visible.
    (The entries of [recentRequests] are kept by value: no method updates
    one.) *)
Module Heap.

(** References are positions in the heap. *)
Abbreviation loc := nat.

Inductive obj :=
  | ORequests (rq : Requests)
      (* { total, success, errors, perMinute, peakRPM } *)
  | OPerformance (times : loc) (avg : Z) (mn : jsnum) (mx : Z)
      (* { responseTimes, averageResponseTime, minResponseTime, maxResponseTime } *)
  | ONumbers (xs : list Z)
      (* an array of response times *)
  | ORecords (rs : list RecentRequest)
      (* an array of recent requests *)
  | OMetrics (rq pf rr : loc) (ts : option string).
      (* { requests, performance, recentRequests } and, in the result of
         getMetrics, timestamp *)

(** The heap and the reference held in [this.metrics]. *)
Record store := mkStore {
  heap : list obj;
  metrics : loc
}.

(** A new object: it is placed after all existing ones. *)
Definition alloc (o : obj) (h : list obj) : list obj * loc := (h ++ [o], length h).

Definition read_requests (h : list obj) (l : loc) : option Requests :=
  match h !! l with Some (ORequests rq) => Some rq | _ => None end.

Definition read_performance (h : list obj) (l : loc) : option (loc * Z * jsnum * Z) :=
  match h !! l with Some (OPerformance lt a mn mx) => Some (lt, a, mn, mx) | _ => None end.

Definition read_numbers (h : list obj) (l : loc) : option (list Z) :=
  match h !! l with Some (ONumbers xs) => Some xs | _ => None end.

Definition read_records (h : list obj) (l : loc) : option (list RecentRequest) :=
  match h !! l with Some (ORecords rs) => Some rs | _ => None end.

Definition read_metrics (h : list obj) (l : loc) : option (loc * loc * loc * option string) :=
  match h !! l with Some (OMetrics rq pf rr ts) => Some (rq, pf, rr, ts) | _ => None end.

(** The object literal assigned to [this.metrics] by the constructor and by
    [resetMetrics]. *)
Definition new_metrics (h : list obj) : list obj * loc :=
  let '(h, lrq) := alloc (ORequests {| total := 0; success := 0; errors := 0;
                                       perMinute := 0; peakRPM := 0 |}) h in
  let '(h, lts) := alloc (ONumbers []) h in
  let '(h, lpf) := alloc (OPerformance lts 0 Infinity 0) h in
  let '(h, lrr) := alloc (ORecords []) h in
  alloc (OMetrics lrq lpf lrr None) h.

Definition constructor : store :=
  let '(h, l) := new_metrics [] in {| heap := h; metrics := l |}.

Definition resetMetrics (s : store) : store :=
  let '(h, l) := new_metrics (heap s) in {| heap := h; metrics := l |}.

Definition recordRequest (s : store) (d : RequestData) : option store :=
  let h := heap s in
  '(lrq, lpf, lrr, ts) ← read_metrics h (metrics s);
  (* Update request counts *)
  rq ← read_requests h lrq;
  let h := <[lrq := ORequests (count_request rq d)]> h in
  (* responseTimes.push(responseTime) *)
  '(lt, avg, mn, mx) ← read_performance h lpf;
  times ← read_numbers h lt;
  let pushed := times ++ [responseTime d] in
  let h := <[lt := ONumbers pushed]> h in
  (* responseTimes = responseTimes.slice(-1000) *)
  let '(h, lt) :=
    if (1000 <? length pushed)%nat then
      let '(h, lt') := alloc (ONumbers (slice_last 1000 pushed)) h in
      (<[lpf := OPerformance lt' avg mn mx]> h, lt')
    else (h, lt) in
  (* min, max and average *)
  times ← read_numbers h lt;
  let h := <[lpf := OPerformance lt (average times)
                      (update_min (responseTime d) mn)
                      (update_max (responseTime d) mx)]> h in
  (* recentRequests.unshift(recentRequest) *)
  rs ← read_records h lrr;
  let unshifted := recentRequest_of d :: rs in
  let h := <[lrr := ORecords unshifted]> h in
  (* recentRequests = recentRequests.slice(0, 50) *)
  let h :=
    if (50 <? length unshifted)%nat then
      let '(h, lrr') := alloc (ORecords (slice_first 50 unshifted)) h in
      <[metrics s := OMetrics lrq lpf lrr' ts]> h
    else h in
  Some {| heap := h; metrics := metrics s |}.

Definition calculateRequestsPerMinute (now : Z) (s : store) : option store :=
  let h := heap s in
  '(lrq, lpf, lrr, ts) ← read_metrics h (metrics s);
  rs ← read_records h lrr;
  let recent := filter (fun r => inLastMinute now r = true) rs in
  rq ← read_requests h lrq;
  Some {| heap := <[lrq := ORequests (set_perMinute rq (Z.of_nat (length recent)))]> h;
          metrics := metrics s |}.

(** [{ ...this.metrics, timestamp: new Date().toISOString() }]: a new object
    that receives the three references held by [this.metrics]. *)
Definition getMetrics (iso : string) (s : store) : option (store * loc) :=
  '(lrq, lpf, lrr, _) ← read_metrics (heap s) (metrics s);
  let '(h, l) := alloc (OMetrics lrq lpf lrr (Some iso)) (heap s) in
  Some ({| heap := h; metrics := metrics s |}, l).

(** The metrics reachable from the object at [l], read field by field. *)
Definition view_at (h : list obj) (l : loc) : option Metrics :=
  '(lrq, lpf, lrr, _) ← read_metrics h l;
  rq ← read_requests h lrq;
  '(lt, avg, mn, mx) ← read_performance h lpf;
  times ← read_numbers h lt;
  rs ← read_records h lrr;
  Some {| requests := rq;
          performance := {| responseTimes := times; averageResponseTime := avg;
                            minResponseTime := mn; maxResponseTime := mx |};
          recentRequests := rs |}.

(** What the store's methods see: the metrics reachable from [this.metrics]. *)
Definition view (s : store) : option Metrics := view_at (heap s) (metrics s).

(** A sequence of [recordRequest] calls on a new store. *)
Definition record_all (ds : list RequestData) : option store :=
  fold_left (λ os d, s ← os; recordRequest s d) ds (Some constructor).

Definition getHealthSummary (s : store) : option HealthSummary :=
  getHealthSummary <$> view s.

(** The objects reachable from the metrics object at [l]: the object graph
    that [view_at] reads. *)
Record graph (h : list obj) (l : loc) (m : Metrics)
    (lrq lpf lrr lt : loc) (ts : option string) : Prop := mkGraph {
  graph_metrics : h !! l = Some (OMetrics lrq lpf lrr ts);
  graph_requests : h !! lrq = Some (ORequests (requests m));
  graph_performance :
    h !! lpf = Some (OPerformance lt (averageResponseTime (performance m))
                       (minResponseTime (performance m))
                       (maxResponseTime (performance m)));
  graph_times : h !! lt = Some (ONumbers (responseTimes (performance m)));
  graph_recent : h !! lrr = Some (ORecords (recentRequests m))
}.

(** *** A client holding the result of [getMetrics]

    What the holder of a reference [snap] returned by [getMetrics] can do
    with it. *)

(** [snap.performance.responseTimes.push(x)] *)
Definition client_push_time (snap : loc) (x : Z) (s : store) : option store :=
  '(_, lpf, _, _) ← read_metrics (heap s) snap;
  '(lt, _, _, _) ← read_performance (heap s) lpf;
  times ← read_numbers (heap s) lt;
  Some {| heap := <[lt := ONumbers (times ++ [x])]> (heap s); metrics := metrics s |}.

(** [snap.recentRequests.length = 0] *)
Definition client_clear_recent (snap : loc) (s : store) : option store :=
  '(_, _, lrr, _) ← read_metrics (heap s) snap;
  _ ← read_records (heap s) lrr;
  Some {| heap := <[lrr := ORecords []]> (heap s); metrics := metrics s |}.

(** An assignment to fields of the object [snap] itself, such as
    [snap.requests = ...] or [delete snap.timestamp]: the object at [snap]
    becomes [o]. *)
Definition client_assign (snap : loc) (o : obj) (s : store) : store :=
  {| heap := <[snap := o]> (heap s); metrics := metrics s |}.

End Heap.

(** ** Notions the properties are stated with *)

(** [m] is the least element of [l]; of the empty list, [Infinity]. *)
Definition is_minimum (l : list Z) (m : jsnum) : Prop :=
  match m with
  | Infinity => l = []
  | Num z => z ∈ l ∧ ∀ x, x ∈ l → z ≤ x
  end.

(** [z] is the greatest element of [l]. *)
Definition is_maximum (l : list Z) (z : Z) : Prop :=
  z ∈ l ∧ ∀ x, x ∈ l → x ≤ z.

(** [avg] is the integer nearest to [sum / n], the upper one of two. *)
Definition nearest_integer (sum n avg : Z) : Prop :=
  2 * n * avg ≤ 2 * sum + n < 2 * n * (avg + 1).

(** The sum of a list of latencies. *)
Definition total_of (l : list Z) : Z := foldr Z.add 0 l.

(** A latency within the range of the model. *)
Definition latency_in_range (t : Z) : Prop :=
  - latency_bound ≤ t ≤ latency_bound.

(** The last [n] elements of a list. *)
Definition most_recent {A} (n : nat) (l : list A) : list A :=
  reverse (take n (reverse l)).

(** The request carries a valid timestamp within the 60 seconds that end
    at time [now]. *)
Definition InTrailingMinute (now : Z) (r : RecentRequest) : Prop :=
  ∃ t, rr_timestamp r = Some t ∧ now - 60000 ≤ t ≤ now.

(** The request carries a valid timestamp that is not older than 60 seconds
    at time [now]. *)
Definition NotOlderThanMinute (now : Z) (r : RecentRequest) : Prop :=
  ∃ t, rr_timestamp r = Some t ∧ now - 60000 ≤ t.

(** The request was not stamped after time [now]. *)
Definition NotStampedAfter (now : Z) (r : RecentRequest) : Prop :=
  ∀ t, rr_timestamp r = Some t → t ≤ now.

(** [counts P l n]: exactly [n] entries of [l] satisfy [P]. *)
Inductive counts {A} (P : A → Prop) : list A → nat → Prop :=
  | counts_nil : counts P [] 0
  | counts_yes x l n : P x → counts P l n → counts P (x :: l) (S n)
  | counts_no x l n : ¬ P x → counts P l n → counts P (x :: l) n.

(** The two invariants of the counters. *)
Definition counters_consistent (m : Metrics) : Prop :=
  total (requests m) = success (requests m) + errors (requests m).

Definition peak_bounds_rate (m : Metrics) : Prop :=
  perMinute (requests m) ≤ peakRPM (requests m).

(** A request with the given status code and latency, stamped at time 0. *)
Definition request (code latency : Z) : RequestData :=
  {| statusCode := code; responseTime := latency;
     method := "GET"; path := "/api/status"; timestamp := Some 0;
     ip := Some "192.168.100.200"; userAgent := None |}.

(** A store that has served one request, with a snapshot of it; the verdict
    after the next request; the rate that the next recomputation finds. *)
Definition served_once : option (Heap.store * nat) :=
  s ← Heap.recordRequest Heap.constructor (request 200 100);
  Heap.getMetrics "2025-01-01T00:00:00.000Z" s.

Definition next_verdict (s : Heap.store) : option bool :=
  s' ← Heap.recordRequest s (request 200 100);
  h ← Heap.getHealthSummary s';
  Some (healthy h).

Definition next_rate (s : Heap.store) : option Z :=
  s' ← Heap.calculateRequestsPerMinute 30000 s;
  m ← Heap.view s';
  Some (perMinute (requests m)).

(** ** Notions for the further properties *)

(** What holds of the store after any sequence of operations. *)
Definition store_invariant (m : Metrics) : Prop :=
  0 ≤ success (requests m) ∧ 0 ≤ errors (requests m)
  ∧ total (requests m) = success (requests m) + errors (requests m)
  ∧ 0 ≤ perMinute (requests m) ≤ peakRPM (requests m)
  ∧ peakRPM (requests m) ≤ 50
  ∧ (length (recentRequests m) ≤ 50)%nat
  ∧ (length (responseTimes (performance m)) ≤ 1000)%nat
  ∧ match minResponseTime (performance m) with
    | Infinity =>
        total (requests m) = 0 ∧ responseTimes (performance m) = []
        ∧ recentRequests m = [] ∧ averageResponseTime (performance m) = 0
        ∧ maxResponseTime (performance m) = 0
    | Num mn =>
        0 < total (requests m) ∧ responseTimes (performance m) ≠ []
        ∧ recentRequests m ≠ []
        ∧ Forall (λ x, mn ≤ x ≤ maxResponseTime (performance m))
                 (responseTimes (performance m))
        ∧ averageResponseTime (performance m) = average (responseTimes (performance m))
        ∧ 0 ≤ maxResponseTime (performance m)
    end.

(** A sequence of [recordRequest] calls on a given store. *)
Definition record_from (s : Heap.store) (ds : list RequestData) : option Heap.store :=
  fold_left (λ os d, s ← os; Heap.recordRequest s d) ds (Some s).

(** The greatest of a list of rates, and 0 for none. *)
Definition max_list (l : list Z) : Z := foldr Z.max 0 l.

(** The values of [perMinute] in the states that a sequence of operations
    goes through, the initial one included. *)
Definition rates (os : list op) : list Z :=
  (λ n, perMinute (requests (run (take n os)))) <$> seq 0 (S (length os)).

(** ** The collecting middleware (src/middleware/metricsCollector.js)

    The middleware replaces [res.end] by a function that records the
    request in the store and then calls the function it replaced. *)

(** What the middleware reads of [req]; [req_userAgent] is
    [req.get('User-Agent')]. *)
Record Req := mkReq {
  req_method : string;
  req_path : string;
  req_ip : option string;
  req_userAgent : option string
}.

(** The process as the middleware sees it: the metrics of the store (the
    module exports one instance), and the clock, given by the sequence of
    its readings and the number of readings taken so far. *)
Record World := mkWorld {
  w_metrics : Metrics;
  w_clock : nat → Z;
  w_reads : nat
}.

(** [Date.now()], and the time of [new Date()]. *)
Definition Date_now (w : World) : Z * World :=
  (w_clock w (w_reads w),
   {| w_metrics := w_metrics w; w_clock := w_clock w; w_reads := S (w_reads w) |}).

(** [res]: its status code and its [end] method.  The method is given the
    state of [req] and the status code of [res] at the time of the call,
    since the function that the middleware installs reads both then. *)
Record Response := mkResponse {
  res_statusCode : Z;
  res_end : Req → Z → World → World
}.

(** [res.end()] *)
Definition end_response (req : Req) (res : Response) (w : World) : World :=
  res_end res req (res_statusCode res) w.

(** [res.status(code)] *)
Definition set_status (code : Z) (res : Response) : Response :=
  {| res_statusCode := code; res_end := res_end res |}.

Definition metricsCollector {R} (req : Req) (res : Response)
    (next : Response → World → R) (w : World) : R :=
  let '(startTime, w) := Date_now w in
  let originalEnd := res_end res in
  let res :=
    {| res_statusCode := res_statusCode res;
       res_end := λ req statusCode w,
         let '(endTime, w) := Date_now w in
         let responseTime := endTime - startTime in
         let '(now, w) := Date_now w in
         let w :=
           {| w_metrics :=
                recordRequest (w_metrics w)
                  {| statusCode := statusCode;
                     responseTime := responseTime;
                     method := req_method req;
                     path := req_path req;
                     timestamp := Some now;
                     ip := req_ip req;
                     userAgent := req_userAgent req |};
              w_clock := w_clock w;
              w_reads := w_reads w |} in
         originalEnd req statusCode w |} in
  next res w.

(** The clock does not go backwards. *)
Definition monotone_clock (clock : nat → Z) : Prop :=
  ∀ i j, (i ≤ j)%nat → clock i ≤ clock j.

(** The [end] method leaves the metrics of the store alone. *)
Definition end_keeps_metrics (res : Response) : Prop :=
  ∀ req code w, w_metrics (res_end res req code w) = w_metrics w.


(** ** Request counters *)

Lemma fold_left_invariant {S I} (f : S → I → S) (P : S → Prop) :
  (∀ s i, P s → P (f s i)) → ∀ xs s, P s → P (fold_left f xs s).
Proof.
  intros Hstep xs. induction xs as [|x xs IH]; intros s Hs; simpl; auto.
Qed.

Lemma recordRequest_counters_consistent m d :
  counters_consistent m → counters_consistent (recordRequest m d).
Proof.
  unfold counters_consistent. simpl. intros H.
  destruct (isSuccess (statusCode d)); lia.
Qed.

(** C1.  After each call of a sequence of [recordRequest] calls on a new
    store (that is, after every prefix of the sequence),
    [total = success + errors]. *)
Theorem total_is_success_plus_errors (ds : list RequestData) (n : nat) :
  let m := record_all (take n ds) in
  total (requests m) = success (requests m) + errors (requests m).
Proof.
  simpl. apply (fold_left_invariant recordRequest counters_consistent).
  - intros s d. apply recordRequest_counters_consistent.
  - reflexivity.
Qed.

Lemma isSuccess_range code :
  isSuccess code = (200 <=? code) && (code <=? 399).
Proof.
  unfold isSuccess. f_equal.
  destruct (Z.ltb_spec code 400), (Z.leb_spec code 399); auto; lia.
Qed.

(** C2.  [recordRequest] counts a status code in 200..399 as a success and
    any other integer as an error; 199, 400 and 500 are errors, 200 and 399
    are successes. *)
Theorem status_code_classification (m : Metrics) (d : RequestData) :
  (let m' := recordRequest m d in
   (success (requests m'), errors (requests m')) =
   if (200 <=? statusCode d) && (statusCode d <=? 399)
   then (success (requests m) + 1, errors (requests m))
   else (success (requests m), errors (requests m) + 1))
  ∧ Forall (λ code,
       let m' := recordRequest m (request code (responseTime d)) in
       success (requests m') = success (requests m) ∧
       errors (requests m') = errors (requests m) + 1) [199; 400; 500]
  ∧ Forall (λ code,
       let m' := recordRequest m (request code (responseTime d)) in
       success (requests m') = success (requests m) + 1 ∧
       errors (requests m') = errors (requests m)) [200; 399].
Proof.
  split; [|split].
  - simpl. rewrite <- isSuccess_range. by destruct (isSuccess (statusCode d)).
  - repeat constructor.
  - repeat constructor.
Qed.

(** ** The bounded buffers *)

Lemma record_all_snoc ds d :
  record_all (ds ++ [d]) = recordRequest (record_all ds) d.
Proof. unfold record_all. by rewrite fold_left_app. Qed.

Lemma slice_last_most_recent {A} (n : nat) (l : list A) :
  slice_last n l = most_recent n l.
Proof.
  unfold slice_last, most_recent.
  by rewrite take_reverse, reverse_involutive.
Qed.

Lemma push_time_slice_last l t :
  push_time (slice_last 1000 l) t = slice_last 1000 (l ++ [t]).
Proof.
  unfold push_time, slice_last.
  rewrite !length_app, !length_drop. simpl.
  destruct (Nat.ltb_spec 1000 (length l - (length l - 1000) + 1)) as [Hgt|Hle].
  - rewrite drop_app_le by (rewrite length_drop; lia).
    rewrite drop_drop. rewrite (drop_app_le l) by lia.
    do 2 f_equal. lia.
  - replace (length l - 1000)%nat with 0%nat by lia.
    replace (length l + 1 - 1000)%nat with 0%nat by lia.
    reflexivity.
Qed.

Lemma responseTimes_record_all ds :
  responseTimes (performance (record_all ds)) = slice_last 1000 (responseTime <$> ds).
Proof.
  induction ds as [|d ds IH] using rev_ind; [reflexivity|].
  rewrite record_all_snoc, fmap_app. simpl.
  rewrite IH. apply push_time_slice_last.
Qed.

Lemma unshift_recent_take l r :
  unshift_recent (take 50 l) r = take 50 (r :: l).
Proof.
  unfold unshift_recent, slice_first.
  cbn [length]. rewrite length_take.
  destruct (Nat.ltb_spec 50 (S (50 `min` length l))) as [Hgt|Hle].
  - change (take 50 (r :: take 50 l)) with (r :: take 49 (take 50 l)).
    by rewrite take_take.
  - change (take 50 (r :: l)) with (r :: take 49 l).
    f_equal. rewrite !take_ge; [done|lia|lia].
Qed.

Lemma recentRequests_record_all ds :
  recentRequests (record_all ds) = take 50 (reverse (recentRequest_of <$> ds)).
Proof.
  induction ds as [|d ds IH] using rev_ind; [reflexivity|].
  rewrite record_all_snoc, fmap_app, reverse_app. simpl.
  rewrite IH. apply unshift_recent_take.
Qed.

(** ** Running minimum and maximum *)

Lemma elem_of_snoc_inv (l : list Z) (t x : Z) :
  x ∈ l ++ [t] → x ∈ l ∨ x = t.
Proof.
  intros [Hx|Hx]%elem_of_app; [by left|].
  right. by apply list_elem_of_singleton in Hx.
Qed.

Lemma elem_of_snoc_last (l : list Z) (t : Z) : t ∈ l ++ [t].
Proof. apply elem_of_app. right. by apply list_elem_of_singleton. Qed.

Lemma elem_of_snoc_old (l : list Z) (t x : Z) : x ∈ l → x ∈ l ++ [t].
Proof. intros Hx. apply elem_of_app. by left. Qed.

Lemma update_min_is_minimum l t mn :
  is_minimum l mn → is_minimum (l ++ [t]) (update_min t mn).
Proof.
  unfold update_min. destruct mn as [z|]; simpl.
  - intros [Hin Hle]. destruct (Z.ltb_spec t z); simpl.
    + split; [apply elem_of_snoc_last|].
      intros x [Hx| ->]%elem_of_snoc_inv; [|lia].
      specialize (Hle x Hx). lia.
    + split; [by apply elem_of_snoc_old|].
      intros x [Hx| ->]%elem_of_snoc_inv; [by apply Hle|lia].
  - intros ->. simpl. split; [by apply list_elem_of_singleton|].
    intros x Hx. apply list_elem_of_singleton in Hx. lia.
Qed.

Lemma update_max_is_maximum l t mx :
  is_maximum l mx → is_maximum (l ++ [t]) (update_max t mx).
Proof.
  unfold update_max, is_maximum. intros [Hin Hle].
  destruct (Z.ltb_spec mx t).
  - split; [apply elem_of_snoc_last|].
    intros x [Hx| ->]%elem_of_snoc_inv; [|lia].
    specialize (Hle x Hx). lia.
  - split; [by apply elem_of_snoc_old|].
    intros x [Hx| ->]%elem_of_snoc_inv; [by apply Hle|lia].
Qed.

Lemma minResponseTime_record_all ds :
  is_minimum (responseTime <$> ds) (minResponseTime (performance (record_all ds))).
Proof.
  induction ds as [|d ds IH] using rev_ind; [reflexivity|].
  rewrite record_all_snoc, fmap_app. simpl.
  by apply update_min_is_minimum.
Qed.

Lemma maxResponseTime_record_all ds :
  is_maximum (0 :: (responseTime <$> ds)) (maxResponseTime (performance (record_all ds))).
Proof.
  induction ds as [|d ds IH] using rev_ind.
  - split; [by apply list_elem_of_singleton|].
    intros x Hx. apply list_elem_of_singleton in Hx. simpl. lia.
  - rewrite record_all_snoc, fmap_app. simpl.
    by apply (update_max_is_maximum (0 :: (responseTime <$> ds))).
Qed.

(** C3, as stated, fails once a sample has been evicted.  After one request
    of 5 ms and a thousand of 10 ms the buffer holds the thousand 10 ms
    samples and [minResponseTime] is still 5; after one request of 5000 ms
    and a thousand of 10 ms, [maxResponseTime] is still 5000. *)
Lemma min_max_outlive_eviction :
  (let m := record_all (request 200 5 :: replicate 1000 (request 200 10)) in
   ¬ is_minimum (responseTimes (performance m)) (minResponseTime (performance m)))
  ∧
  (let m := record_all (request 200 5000 :: replicate 1000 (request 200 10)) in
   ¬ is_maximum (responseTimes (performance m)) (maxResponseTime (performance m))).
Proof.
  split.
  - assert (Hbuf : responseTimes (performance
             (record_all (request 200 5 :: replicate 1000 (request 200 10))))
           = replicate 1000 10) by (vm_compute; reflexivity).
    assert (Hmin : minResponseTime (performance
             (record_all (request 200 5 :: replicate 1000 (request 200 10))))
           = Num 5) by (vm_compute; reflexivity).
    cbv zeta. rewrite Hbuf, Hmin. intros [Hin _].
    apply elem_of_replicate in Hin as [Heq _]. discriminate Heq.
  - assert (Hbuf : responseTimes (performance
             (record_all (request 200 5000 :: replicate 1000 (request 200 10))))
           = replicate 1000 10) by (vm_compute; reflexivity).
    assert (Hmax : maxResponseTime (performance
             (record_all (request 200 5000 :: replicate 1000 (request 200 10))))
           = 5000) by (vm_compute; reflexivity).
    cbv zeta. rewrite Hbuf, Hmax. intros [Hin _].
    apply elem_of_replicate in Hin as [Heq _]. discriminate Heq.
Qed.

(** C3, amended.  After any sequence of [recordRequest] calls on a new
    store, [minResponseTime] is the least of all latencies recorded so far
    ([Infinity] when there is none) and [maxResponseTime] the greatest of
    all of them and the initial 0, whether or not they are still buffered;
    the buffer holds the last 1000 of these latencies, so that both are
    taken over the buffer as long as nothing has been evicted. *)
Theorem min_max_over_all_recorded (ds : list RequestData) :
  let m := record_all ds in
  let recorded := responseTime <$> ds in
  is_minimum recorded (minResponseTime (performance m))
  ∧ is_maximum (0 :: recorded) (maxResponseTime (performance m))
  ∧ responseTimes (performance m) = most_recent 1000 recorded.
Proof.
  cbv zeta. split; [|split].
  - apply minResponseTime_record_all.
  - apply maxResponseTime_record_all.
  - rewrite responseTimes_record_all. apply slice_last_most_recent.
Qed.

(** ** The average *)

Lemma fold_left_add_foldr (l : list Z) (a : Z) :
  fold_left Z.add l a = a + total_of l.
Proof.
  revert a. induction l as [|x l IH]; intros a; simpl; [lia|].
  rewrite IH. unfold total_of. lia.
Qed.

Lemma sum_times_total_of l : sum_times l = total_of l.
Proof. unfold sum_times. by rewrite fold_left_add_foldr. Qed.

Lemma Math_round_div_nearest a b :
  0 < b → nearest_integer a b (Math_round_div a b).
Proof.
  intros Hb. unfold nearest_integer, Math_round_div.
  pose proof (Z.div_mod (2 * a + b) (2 * b) ltac:(lia)) as Hdm.
  pose proof (Z.mod_pos_bound (2 * a + b) (2 * b) ltac:(lia)) as Hm.
  lia.
Qed.

Lemma average_nearest l :
  l ≠ [] → nearest_integer (total_of l) (Z.of_nat (length l)) (average l).
Proof.
  intros Hl. unfold average. rewrite sum_times_total_of.
  apply Math_round_div_nearest. destruct l; [done|simpl; lia].
Qed.

Lemma push_time_nonempty l t : push_time l t ≠ [].
Proof.
  unfold push_time, slice_last. rewrite length_app. simpl.
  destruct (Nat.ltb_spec 1000 (length l + 1)) as [Hgt|Hle].
  - intros Heq. apply (f_equal length) in Heq.
    rewrite length_drop, length_app in Heq. simpl in Heq. lia.
  - by destruct l.
Qed.

Lemma slice_last_length {A} n (l : list A) :
  length (slice_last n l) = (length l `min` n)%nat.
Proof. unfold slice_last. rewrite length_drop. lia. Qed.

Lemma forallb_seqZ (f : Z → bool) (lo len x : Z) :
  forallb f (seqZ lo len) = true → lo ≤ x < lo + len → f x = true.
Proof.
  intros Hall Hx. rewrite forallb_forall in Hall.
  apply Hall, list_elem_of_In, elem_of_seqZ. lia.
Qed.

(** For small sums and lengths the binary64 division followed by
    [Math.round] is checked to give [Math_round_div], by running it. *)
Lemma Math_round_div_in_doubles_small a b :
  0 < b ≤ 16 → - 100 ≤ a ≤ 100 → quotient_in_doubles a b = Math_round_div a b.
Proof.
  intros Hb Ha.
  assert (forallb (λ b, forallb (λ a, quotient_in_doubles a b =? Math_round_div a b)
                          (seqZ (- 100) 201)) (seqZ 1 16) = true) as Hall
    by (vm_compute; reflexivity).
  apply (forallb_seqZ _ _ _ b) in Hall; [|lia].
  apply (forallb_seqZ _ _ _ a) in Hall; [|lia].
  by apply Z.eqb_eq.
Qed.

(** The binary64 computation of the average on buffers in range: a mean
    that ends in .5, one that does not, negative latencies, the scenario of
    C5, and latencies at the bound whose mean is 1/3 below a half. *)
Example average_in_doubles_in_range :
  average_in_doubles [1; 2] = average [1; 2]
  ∧ average_in_doubles [1; 1; 2] = average [1; 1; 2]
  ∧ average_in_doubles [-3; -4] = average [-3; -4]
  ∧ average_in_doubles [100; 200; 300; 500] = average [100; 200; 300; 500]
  ∧ average_in_doubles [latency_bound; latency_bound - 1; latency_bound - 1;
                        latency_bound - 1; latency_bound - 2; latency_bound - 2]
    = average [latency_bound; latency_bound - 1; latency_bound - 1;
               latency_bound - 1; latency_bound - 2; latency_bound - 2].
Proof. by vm_compute. Qed.

(** Beyond the range it differs: the mean of 2^51, 2^51 and 2^51 + 1 is
    2^51 + 1/3, which the division rounds to the double 2^51 + 1/2. *)
Example average_beyond_latency_bound :
  average_in_doubles [2 ^ 51; 2 ^ 51; 2 ^ 51 + 1] = 2 ^ 51 + 1
  ∧ average [2 ^ 51; 2 ^ 51; 2 ^ 51 + 1] = 2 ^ 51.
Proof. by vm_compute. Qed.

Lemma total_of_bound (B : Z) (l : list Z) :
  Forall (λ t, - B ≤ t ≤ B) l →
  - (Z.of_nat (length l) * B) ≤ total_of l ≤ Z.of_nat (length l) * B.
Proof.
  induction 1 as [|t l Ht _ IH]; [simpl; lia|].
  change (total_of (t :: l)) with (t + total_of l).
  rewrite length_cons, Nat2Z.inj_succ. lia.
Qed.

Lemma partial_sums_exact (l : list Z) (k : nat) :
  Forall latency_in_range l → (length l ≤ 1000)%nat →
  - 2 ^ 52 < total_of (take k l) < 2 ^ 52.
Proof.
  intros Hl Hlen.
  assert (Forall (λ t, - latency_bound ≤ t ≤ latency_bound) (take k l)) as Htake
    by (by apply Forall_take).
  pose proof (total_of_bound latency_bound (take k l) Htake) as Hsum. clear Htake.
  assert (Z.of_nat (length (take k l)) ≤ 1000) as Hk by (rewrite length_take; lia).
  assert (0 ≤ Z.of_nat (length (take k l))) as Hk0 by lia.
  revert Hsum. generalize (Z.of_nat (length (take k l))) Hk Hk0. intros n Hn Hn0.
  change latency_bound with 4398046511104.
  change (2 ^ 52) with 4503599627370496. nia.
Qed.

(** C5, as stated, fails when the mean is not an integer: after latencies
    of 1 ms and 2 ms the average is 2, which is neither the quotient 3/2 nor
    its integer part. *)
Lemma average_is_not_the_quotient :
  let m := record_all [request 200 1; request 200 2] in
  let samples := responseTimes (performance m) in
  averageResponseTime (performance m) * Z.of_nat (length samples) ≠ total_of samples
  ∧ averageResponseTime (performance m) ≠ total_of samples / Z.of_nat (length samples).
Proof. by vm_compute. Qed.

(** C5, amended.  After each call of a non-empty sequence of
    [recordRequest] calls on a new store with latencies of magnitude at
    most 2^42 ms, [averageResponseTime] is the sum of the buffered
    latencies divided by their number and rounded to the nearest integer
    (halves up), the buffer being the last [min n 1000] latencies recorded;
    every partial sum that the source forms is below 2^52 in magnitude, so
    that its additions are exact.  Recording 100, 200, 300 ms with status
    200 and 500 ms with status 500 gives total 4, success 3, errors 1,
    average 275, min 100 and max 500. *)
Theorem average_is_rounded_mean_of_buffer (d : RequestData) (ds : list RequestData) :
  Forall (λ d, latency_in_range (responseTime d)) (d :: ds) →
  (let m := record_all (d :: ds) in
   let samples := responseTimes (performance m) in
   samples = most_recent 1000 (responseTime <$> d :: ds)
   ∧ length samples = (length (d :: ds) `min` 1000)%nat
   ∧ (∀ k, - 2 ^ 52 < total_of (take k samples) < 2 ^ 52)
   ∧ nearest_integer (total_of samples) (Z.of_nat (length samples))
                     (averageResponseTime (performance m)))
  ∧
  (let m := record_all [request 200 100; request 200 200; request 200 300;
                        request 500 500] in
   total (requests m) = 4 ∧ success (requests m) = 3 ∧ errors (requests m) = 1
   ∧ averageResponseTime (performance m) = 275
   ∧ minResponseTime (performance m) = Num 100
   ∧ maxResponseTime (performance m) = 500).
Proof.
  intros Hrange. split; [|by vm_compute].
  cbv zeta. split; [|split; [|split]].
  - rewrite responseTimes_record_all. apply slice_last_most_recent.
  - rewrite responseTimes_record_all, slice_last_length, length_fmap. done.
  - intros k. rewrite responseTimes_record_all. apply partial_sums_exact.
    + unfold slice_last. apply Forall_drop. by rewrite Forall_fmap.
    + rewrite slice_last_length. lia.
  - destruct (exists_last (l := d :: ds)) as (ds' & d' & ->); [done|].
    rewrite record_all_snoc. simpl.
    apply average_nearest, push_time_nonempty.
Qed.

Lemma average_is_rounded_mean_of_buffer_witness :
  Forall (λ d, latency_in_range (responseTime d)) [request 200 1; request 200 2]
  ∧ nearest_integer
      (total_of (responseTimes (performance (record_all [request 200 1; request 200 2]))))
      (Z.of_nat (length (responseTimes
                           (performance (record_all [request 200 1; request 200 2])))))
      (averageResponseTime (performance (record_all [request 200 1; request 200 2]))).
Proof.
  assert (Forall (λ d, latency_in_range (responseTime d))
                 [request 200 1; request 200 2]) as Hrange
    by (repeat constructor; vm_compute; discriminate).
  split; [exact Hrange|].
  apply (average_is_rounded_mean_of_buffer (request 200 1) [request 200 2] Hrange).
Defined.

(** ** Recent requests *)

(** C7.  After any sequence of [recordRequest] calls on a new store,
    [recentRequests] has at most 50 entries, namely the [min n 50] last
    recorded ones, the latest first. *)
Theorem recentRequests_latest_50_first (ds : list RequestData) :
  let rs := recentRequests (record_all ds) in
  let recorded := recentRequest_of <$> ds in
  (length rs ≤ 50)%nat
  ∧ length rs = (length ds `min` 50)%nat
  ∧ rs = take 50 (reverse recorded)
  ∧ rs = reverse (drop (length recorded - 50) recorded).
Proof.
  cbv zeta. rewrite recentRequests_record_all.
  rewrite length_take, length_reverse, length_fmap.
  repeat split; try lia.
  by rewrite take_reverse, length_fmap.
Qed.

(** ** The health verdict *)

Lemma Math_round_percent_in_range a b :
  0 ≤ a ≤ b → b ≤ counter_bound → Math_round_percent a b = percent_closed_form a b.
Proof.
  intros Ha Hb. unfold Math_round_percent, counts_in_range.
  destruct (Z.leb_spec 0 a), (Z.leb_spec a b), (Z.leb_spec b counter_bound);
    simpl; (done || lia).
Qed.

(** The percentage is at least [q] when the exact one is at least
    [q - 1/2], for a [q] whose half the double computation rounds up. *)
Lemma percent_closed_form_ge a b q :
  0 < b → q ≤ percent_in_doubles (2 * q - 1) 200 →
  q ≤ percent_closed_form a b ↔ (2 * q - 1) * b ≤ 200 * a.
Proof.
  intros Hb Hup. unfold percent_closed_form.
  pose proof (Z.div_mod (200 * a + b) (2 * b) ltac:(lia)) as Hdm.
  pose proof (Z.mod_pos_bound (200 * a + b) (2 * b) ltac:(lia)) as Hm.
  set (k := (200 * a + b) / (2 * b)) in *.
  destruct (Z.eqb_spec ((200 * a + b) mod (2 * b)) 0) as [Hz|Hnz].
  - rewrite Hz in Hdm.
    destruct (Z.ltb_spec (percent_in_doubles (2 * k - 1) 200) k) as [Hdown|Hnd].
    + assert (k ≠ q) by (intros ->; lia).
      split; intros H1; nia.
    + split; intros H1; nia.
  - split; intros H1; nia.
Qed.


(** For small counts the binary64 computation is checked to give the
    closed form, by running it on every pair. *)
Lemma percent_in_doubles_small a b :
  0 ≤ a ≤ b → 0 < b ≤ 40 → percent_in_doubles a b = percent_closed_form a b.
Proof.
  intros Ha Hb.
  assert (forallb (λ b, forallb (λ a, percent_in_doubles a b =? percent_closed_form a b)
                          (seqZ 0 (b + 1))) (seqZ 1 40) = true) as Hall
    by (vm_compute; reflexivity).
  apply (forallb_seqZ _ _ _ b) in Hall; [|lia].
  apply (forallb_seqZ _ _ _ a) in Hall; [|lia].
  by apply Z.eqb_eq.
Qed.

(** Counts at the bound whose percentage is within [1 / b] of 94.5, and
    counts beyond the bound where the closed form is no longer what the
    double computation gives: there [Math_round_percent] is the latter. *)
Example Math_round_percent_around_bound :
  percent_in_doubles 16624615811973 17592186044416 = 94
  ∧ percent_closed_form 16624615811973 17592186044416 = 94
  ∧ percent_in_doubles 16624615811974 17592186044416 = 95
  ∧ percent_closed_form 16624615811974 17592186044416 = 95
  ∧ percent_in_doubles 66498463248502 70368744178309 = 95
  ∧ percent_closed_form 66498463248502 70368744178309 = 94
  ∧ Math_round_percent 66498463248502 70368744178309 = 95
  ∧ percent_in_doubles 140033800913622 140737488355399 = 100
  ∧ percent_closed_form 140033800913622 140737488355399 = 99
  ∧ Math_round_percent 140033800913622 140737488355399 = 100.
Proof. by vm_compute. Qed.

(** The percentages that the double computation rounds down although they
    end in .5, and two that it does not. *)
Example Math_round_percent_at_halves :
  Math_round_percent 23 40 = 57 ∧ percent_in_doubles 23 40 = 57
  ∧ Math_round_percent 29 200 = 14 ∧ percent_in_doubles 29 200 = 14
  ∧ Math_round_percent 189 200 = 95 ∧ percent_in_doubles 189 200 = 95
  ∧ Math_round_percent 1 8 = 13 ∧ percent_in_doubles 1 8 = 13
  ∧ Math_round_percent 2 3 = 67 ∧ percent_in_doubles 2 3 = 67
  ∧ Math_round_percent 18 19 = 95 ∧ percent_in_doubles 18 19 = 95.
Proof. by vm_compute. Qed.

(** C4, as stated, fails between 94.5% and 95%: with 18 successes out of
    19 requests (94.7%) served in 100 ms the store is reported healthy. *)
Lemma healthy_below_95_percent :
  let m := record_all (replicate 18 (request 200 100) ++ [request 500 100]) in
  ¬ (healthy (getHealthSummary m) = true ↔
     (total (requests m) = 0 ∨ 95 * total (requests m) ≤ 100 * success (requests m))
     ∧ averageResponseTime (performance m) < 1000).
Proof.
  cbv zeta. intros [Hclaim _].
  assert (Hh : healthy (getHealthSummary
            (record_all (replicate 18 (request 200 100) ++ [request 500 100]))) = true)
    by (vm_compute; reflexivity).
  destruct (Hclaim Hh) as [Hrate _]. vm_compute in Hrate.
  destruct Hrate as [Hz|Hle]; [discriminate Hz|by apply Hle].
Qed.

(** C4, amended.  In a state whose counters satisfy
    [0 ≤ success ≤ total ≤ 2^44], [getHealthSummary] reports healthy exactly
    when the success rate rounded to a whole percent is at least 95, that is
    when success/total is at least 94.5% or there was no request (the rate
    is then 100), and the stored average response time is below 1000 ms.  A
    new store is healthy with rate 100; 6 successes out of 10 requests give
    rate 60 and unhealthy; one successful request of 1000 ms gives rate 100
    and unhealthy. *)
Theorem healthy_iff_rounded_rate_and_average (m : Metrics) :
  0 ≤ success (requests m) ≤ total (requests m) →
  total (requests m) ≤ counter_bound →
  (healthy (getHealthSummary m) = true ↔
     (total (requests m) ≤ 0 ∨ 189 * total (requests m) ≤ 200 * success (requests m))
     ∧ averageResponseTime (performance m) < 1000)
  ∧ (let h := getHealthSummary constructor in
     healthy h = true ∧ successRate h = 100)
  ∧ (let h := getHealthSummary
        (record_all (replicate 6 (request 200 100) ++ replicate 4 (request 500 100))) in
     totalRequests h = 10 ∧ successRate h = 60 ∧ healthy h = false)
  ∧ (let h := getHealthSummary (record_all [request 200 1000]) in
     successRate h = 100 ∧ hs_averageResponseTime h = 1000 ∧ healthy h = false).
Proof.
  intros Hcounts Hbound. split; [|by vm_compute].
  unfold getHealthSummary. simpl.
  rewrite andb_true_iff, Z.leb_le, Z.ltb_lt.
  destruct (Z.ltb_spec 0 (total (requests m))) as [Hpos|Hnp].
  - rewrite Math_round_percent_in_range by done.
    rewrite (percent_closed_form_ge _ _ 95) by (done || by vm_compute).
    split; intros [H1 H2]; (split; [|done]).
    + right. lia.
    + destruct H1; lia.
  - split; intros [H1 H2]; (split; [|done]); [by left|lia].
Qed.

Lemma healthy_iff_rounded_rate_and_average_witness :
  let m := record_all (replicate 18 (request 200 100) ++ [request 500 100]) in
  (0 ≤ success (requests m) ≤ total (requests m) ∧ total (requests m) ≤ counter_bound)
  ∧ (healthy (getHealthSummary m) = true ↔
       (total (requests m) ≤ 0 ∨ 189 * total (requests m) ≤ 200 * success (requests m))
       ∧ averageResponseTime (performance m) < 1000).
Proof.
  cbv zeta.
  assert (0 ≤ success (requests (record_all
            (replicate 18 (request 200 100) ++ [request 500 100])))
          ≤ total (requests (record_all
            (replicate 18 (request 200 100) ++ [request 500 100])))) as Hcounts
    by (split; vm_compute; discriminate).
  assert (total (requests (record_all
            (replicate 18 (request 200 100) ++ [request 500 100]))) ≤ counter_bound)
    as Hbound by (vm_compute; discriminate).
  split; [by split|].
  apply (healthy_iff_rounded_rate_and_average
           (record_all (replicate 18 (request 200 100) ++ [request 500 100]))
           Hcounts Hbound).
Defined.

(** Beyond the bound the criterion no longer decides the verdict: with
    66498463248502 successes out of 70368744178309 requests the exact rate
    is below 94.5%, and the double computation reports 95 and healthy. *)
Example healthy_beyond_counter_bound :
  let m := {| requests := {| total := 70368744178309; success := 66498463248502;
                             errors := 3870280929807; perMinute := 0; peakRPM := 0 |};
              performance := performance constructor;
              recentRequests := [] |} in
  healthy (getHealthSummary m) = true
  ∧ successRate (getHealthSummary m) = 95
  ∧ 200 * success (requests m) < 189 * total (requests m).
Proof. by vm_compute. Qed.

(** ** Requests per minute and its peak *)

Lemma inLastMinute_spec now r :
  inLastMinute now r = true ↔ NotOlderThanMinute now r.
Proof.
  unfold inLastMinute, NotOlderThanMinute. destruct (rr_timestamp r) as [t|].
  - rewrite Z.leb_le. split; [by eauto|]. by intros (t' & [= <-] & Ht).
  - split; [done|]. by intros (t' & [=] & _).
Qed.

Lemma counts_filter_length now rs N :
  counts (NotOlderThanMinute now) rs N →
  length (filter (λ r, inLastMinute now r = true) rs) = N.
Proof.
  induction 1 as [|r rs n Hr _ IH|r rs n Hr _ IH]; [done| |].
  - rewrite filter_cons_True by by apply inLastMinute_spec. simpl. by rewrite IH.
  - rewrite filter_cons_False; [done|]. by rewrite inLastMinute_spec.
Qed.

Lemma InTrailingMinute_NotOlder now r :
  InTrailingMinute now r → NotOlderThanMinute now r.
Proof. intros (t & Ht & Hlo & _). by exists t. Qed.

Lemma NotOlder_InTrailingMinute now r :
  NotStampedAfter now r → NotOlderThanMinute now r → InTrailingMinute now r.
Proof. intros Hpast (t & Ht & Hlo). exists t. auto. Qed.

Lemma counts_trailing_not_older now rs N :
  Forall (NotStampedAfter now) rs →
  counts (InTrailingMinute now) rs N → counts (NotOlderThanMinute now) rs N.
Proof.
  intros Hpast Hc. induction Hc as [|r rs n Hr _ IH|r rs n Hr _ IH].
  - constructor.
  - apply Forall_cons in Hpast as [_ Hpast].
    apply counts_yes; [by apply InTrailingMinute_NotOlder|by apply IH].
  - apply Forall_cons in Hpast as [Hr' Hpast].
    apply counts_no; [|by apply IH].
    intros Hn. by apply Hr, NotOlder_InTrailingMinute.
Qed.

Lemma counts_all {A} (P : A → Prop) (l : list A) :
  Forall P l → counts P l (length l).
Proof. induction 1; simpl; by constructor. Qed.

Lemma step_peak_bounds_rate m o : peak_bounds_rate m → peak_bounds_rate (step m o).
Proof.
  unfold peak_bounds_rate. destruct o; simpl; try done.
  intros _. destruct (Z.ltb_spec (peakRPM (requests m))
    (Z.of_nat (length (filter (λ r, inLastMinute now r = true) (recentRequests m))))); lia.
Qed.

(** C8, as stated, fails when an entry is stamped after the time of the
    call: the source tests only that an entry is not older than 60 seconds.
    With one request stamped at 100 s and the call made at 30 s, no entry
    lies within the 60 seconds that end at the call, and [perMinute] is set
    to 1. *)
Lemma perMinute_counts_later_stamps :
  let m := record_all [{| statusCode := 200; responseTime := 10;
                          method := "GET"; path := "/api/status";
                          timestamp := Some 100000;
                          ip := Some "192.168.100.200"; userAgent := None |}] in
  counts (InTrailingMinute 30000) (recentRequests m) 0
  ∧ perMinute (requests (calculateRequestsPerMinute 30000 m)) ≠ Z.of_nat 0.
Proof.
  cbv zeta. split; [|by vm_compute].
  apply counts_no; [|apply counts_nil].
  intros (t & Ht & _ & Hle). injection Ht as <-. lia.
Qed.

(** C8, amended.  In any state whose [recentRequests] has exactly [N]
    entries stamped within the 60 seconds before [now], and none stamped
    after [now], [calculateRequestsPerMinute] sets [perMinute] to [N]; so it
    does after [N ≤ 50] such requests were recorded on a new store.  (The
    source tests only that an entry is not older than 60 seconds, and
    [perMinute] is the number of those entries in every state.)  After any
    sequence of operations [peakRPM ≥ perMinute], and no operation other
    than [resetMetrics] lowers [peakRPM]. *)
Theorem perMinute_counts_and_peak_is_running_max :
  (∀ (m : Metrics) (now : Z) (N : nat),
     Forall (NotStampedAfter now) (recentRequests m) →
     counts (InTrailingMinute now) (recentRequests m) N →
     perMinute (requests (calculateRequestsPerMinute now m)) = Z.of_nat N)
  ∧ (∀ (m : Metrics) (now : Z) (N : nat),
       counts (NotOlderThanMinute now) (recentRequests m) N →
       perMinute (requests (calculateRequestsPerMinute now m)) = Z.of_nat N)
  ∧ (∀ (ds : list RequestData) (now : Z),
       (length ds ≤ 50)%nat →
       Forall (λ d, InTrailingMinute now (recentRequest_of d)) ds →
       perMinute (requests (calculateRequestsPerMinute now (record_all ds)))
       = Z.of_nat (length ds))
  ∧ (∀ os : list op, perMinute (requests (run os)) ≤ peakRPM (requests (run os)))
  ∧ (∀ (m : Metrics) (o : op),
       is_reset o = false → peakRPM (requests m) ≤ peakRPM (requests (step m o))).
Proof.
  split; [|split; [|split; [|split]]].
  - intros m now N Hpast HN. simpl.
    by rewrite (counts_filter_length now _ N) by by apply counts_trailing_not_older.
  - intros m now N HN. simpl. by rewrite (counts_filter_length now _ N).
  - intros ds now Hlen Hall. simpl. f_equal.
    apply counts_filter_length.
    rewrite recentRequests_record_all, take_ge
      by (rewrite length_reverse, length_fmap; lia).
    replace (length ds) with (length (reverse (recentRequest_of <$> ds)))
      by (by rewrite length_reverse, length_fmap).
    apply counts_all. rewrite Forall_reverse, Forall_fmap.
    eapply Forall_impl; [exact Hall|].
    intros d Hd. by apply InTrailingMinute_NotOlder.
  - intros os. apply (fold_left_invariant step peak_bounds_rate).
    + intros s o. apply step_peak_bounds_rate.
    + unfold peak_bounds_rate. simpl. lia.
  - intros m o Ho. destruct o; simpl; try lia; [|discriminate Ho].
    destruct (Z.ltb_spec (peakRPM (requests m))
      (Z.of_nat (length (filter (λ r, inLastMinute now r = true) (recentRequests m))))); lia.
Qed.

Lemma perMinute_counts_and_peak_is_running_max_witness :
  perMinute (requests (calculateRequestsPerMinute 30000
     (record_all [request 200 10; request 404 20]))) = 2
  ∧ 0 ≤ peakRPM (requests (step constructor (RecordRequest (request 200 10)))).
Proof.
  split.
  - apply (proj1 (proj2 (proj2 perMinute_counts_and_peak_is_running_max))
             [request 200 10; request 404 20] 30000).
    + simpl. lia.
    + repeat constructor; exists 0; (split; [reflexivity|lia]).
  - apply (proj2 (proj2 (proj2 (proj2 perMinute_counts_and_peak_is_running_max)))
             constructor (RecordRequest (request 200 10))).
    reflexivity.
Defined.

(** ** Frame of the rate fields *)

(** C10.  [recordRequest] leaves [perMinute] and [peakRPM] as they are, and
    so does every operation other than [calculateRequestsPerMinute] and
    [resetMetrics]. *)
Theorem recordRequest_keeps_rate_fields (m : Metrics) (d : RequestData) (o : op) :
  (perMinute (requests (recordRequest m d)) = perMinute (requests m)
   ∧ peakRPM (requests (recordRequest m d)) = peakRPM (requests m))
  ∧ match o with
    | CalculateRequestsPerMinute _ | ResetMetrics => True
    | _ => perMinute (requests (step m o)) = perMinute (requests m)
           ∧ peakRPM (requests (step m o)) = peakRPM (requests m)
    end.
Proof. split; [done|]. by destruct o. Qed.

(** ** The object graph behind the store

    The methods on the heap compute what the functions on [Metrics] compute,
    as seen through [Heap.view]. *)

#[local] Arguments slice_first : simpl never.
#[local] Arguments slice_last : simpl never.

Ltac heap_len :=
  repeat first [rewrite length_insert | rewrite length_app]; cbn [length]; lia.

Ltac heap_lookup :=
  unfold Heap.read_metrics, Heap.read_requests, Heap.read_performance,
         Heap.read_numbers, Heap.read_records;
  repeat first
    [ rewrite list_lookup_insert_eq by heap_len
    | rewrite list_lookup_insert_ne by heap_len
    | rewrite lookup_app_l by heap_len
    | rewrite list_lookup_middle by heap_len ].

Ltac heap_step := cbn [mbind option_bind].

Ltac heap_fields :=
  cbn [Heap.heap Heap.metrics requests performance recentRequests
       responseTimes averageResponseTime minResponseTime maxResponseTime].

Ltac exists_store lrr lt :=
  eexists _, lrr, lt; (split; [reflexivity|]); (split; [reflexivity|]).

Lemma view_at_graph h l m :
  Heap.view_at h l = Some m ↔ ∃ lrq lpf lrr lt ts, Heap.graph h l m lrq lpf lrr lt ts.
Proof.
  unfold Heap.view_at, Heap.read_metrics, Heap.read_requests,
    Heap.read_performance, Heap.read_numbers, Heap.read_records.
  split.
  - intros H. destruct (h !! l) as [[| | | |lrq lpf lrr ts]|] eqn:Hl; try done. simpl in H.
    destruct (h !! lrq) as [[rq| | | |]|] eqn:Hrq; try done. simpl in H.
    destruct (h !! lpf) as [[|lt a mn mx| | |]|] eqn:Hpf; try done. simpl in H.
    destruct (h !! lt) as [[| |xs| |]|] eqn:Hlt; try done. simpl in H.
    destruct (h !! lrr) as [[| | |rs|]|] eqn:Hrr; try done. simpl in H.
    injection H as <-. exists lrq, lpf, lrr, lt, ts. by split.
  - intros (lrq & lpf & lrr & lt & ts & [H1 H2 H3 H4 H5]).
    rewrite H1. simpl. rewrite H2. simpl. rewrite H3. simpl. rewrite H4. simpl.
    rewrite H5. simpl. by destruct m as [? [] ?].
Qed.

Lemma graph_distinct h l m lrq lpf lrr lt ts :
  Heap.graph h l m lrq lpf lrr lt ts →
  l ≠ lrq ∧ l ≠ lpf ∧ l ≠ lrr ∧ l ≠ lt ∧ lrq ≠ lpf ∧ lrq ≠ lrr ∧ lrq ≠ lt
  ∧ lpf ≠ lrr ∧ lpf ≠ lt ∧ lrr ≠ lt.
Proof. intros [H1 H2 H3 H4 H5]. repeat split; intros ->; congruence. Qed.

Lemma graph_bound h l m lrq lpf lrr lt ts :
  Heap.graph h l m lrq lpf lrr lt ts →
  (l < length h ∧ lrq < length h ∧ lpf < length h ∧ lrr < length h ∧ lt < length h)%nat.
Proof. intros [H1 H2 H3 H4 H5]. repeat split; by eapply lookup_lt_Some. Qed.

Lemma recordRequest_graph s d m lrq lpf lrr lt ts :
  Heap.graph (Heap.heap s) (Heap.metrics s) m lrq lpf lrr lt ts →
  ∃ s' lrr' lt',
    Heap.recordRequest s d = Some s' ∧ Heap.metrics s' = Heap.metrics s ∧
    Heap.graph (Heap.heap s') (Heap.metrics s') (recordRequest m d) lrq lpf lrr' lt' ts.
Proof.
  intros Hg. pose proof (graph_distinct _ _ _ _ _ _ _ _ Hg) as (?&?&?&?&?&?&?&?&?&?).
  pose proof (graph_bound _ _ _ _ _ _ _ _ Hg) as (?&?&?&?&?).
  destruct Hg as [G1 G2 G3 G4 G5].
  destruct s as [h l]. cbn [Heap.heap Heap.metrics] in *.
  unfold Heap.recordRequest, Heap.alloc. cbn [Heap.heap Heap.metrics].
  heap_lookup. rewrite G1. heap_step.
  heap_lookup. rewrite G2. heap_step.
  heap_lookup. rewrite G3. heap_step.
  heap_lookup. rewrite G4. heap_step.
  destruct (1000 <? length (responseTimes (performance m) ++ [responseTime d]))%nat eqn:Hc1;
    heap_lookup; heap_step; heap_lookup; rewrite G5; heap_step;
    cbn [length];
    destruct (50 <? S (length (recentRequests m)))%nat eqn:Hc2;
    [ exists_store (length h + 1)%nat (length h)
    | exists_store lrr (length h)
    | exists_store (length h) lt
    | exists_store lrr lt ];
    unfold recordRequest, push_time, unshift_recent; cbn [length]; rewrite Hc1, Hc2;
    split; heap_fields; heap_lookup;
    first [reflexivity | eassumption | do 2 f_equal; heap_len].
Qed.

Lemma recordRequest_view s d m :
  Heap.view s = Some m →
  Heap.recordRequest s d ≫= Heap.view = Some (recordRequest m d).
Proof.
  intros (lrq & lpf & lrr & lt & ts & Hg)%view_at_graph.
  destruct (recordRequest_graph s d m _ _ _ _ _ Hg) as (s' & lrr' & lt' & -> & _ & Hg').
  heap_step. apply view_at_graph. eauto 6.
Qed.

Lemma record_all_view ds :
  Heap.record_all ds ≫= Heap.view = Some (record_all ds).
Proof.
  induction ds as [|d ds IH] using rev_ind; [reflexivity|].
  unfold Heap.record_all in *. rewrite fold_left_app. cbn [fold_left].
  rewrite record_all_snoc.
  destruct (fold_left _ ds _) as [s|]; [|done].
  heap_step. by apply recordRequest_view.
Qed.

Lemma new_metrics_graph h :
  Heap.graph (Heap.new_metrics h).1 (Heap.new_metrics h).2 constructor
    (length h) (length h + 2) (length h + 3) (length h + 1) None.
Proof.
  unfold Heap.new_metrics, Heap.alloc. cbn [fst snd].
  repeat rewrite length_app. cbn [length].
  replace (length h + 1 + 1 + 1 + 1)%nat with (length h + 4)%nat by lia.
  replace (length h + 1 + 1 + 1)%nat with (length h + 3)%nat by lia.
  replace (length h + 1 + 1)%nat with (length h + 2)%nat by lia.
  rewrite <- !(assoc_L (++)). cbn [app].
  split; unfold constructor; heap_fields;
    (rewrite lookup_app_r by lia);
    match goal with
    | |- _ !! ?i = _ => replace i with 0%nat by lia
    | |- _ !! ?i = _ => replace i with 1%nat by lia
    | |- _ !! ?i = _ => replace i with 2%nat by lia
    | |- _ !! ?i = _ => replace i with 3%nat by lia
    | |- _ !! ?i = _ => replace i with 4%nat by lia
    end; reflexivity.
Qed.

Lemma constructor_view : Heap.view Heap.constructor = Some constructor.
Proof. reflexivity. Qed.

Lemma resetMetrics_view s : Heap.view (Heap.resetMetrics s) = Some constructor.
Proof.
  pose proof (new_metrics_graph (Heap.heap s)) as Hg.
  unfold Heap.view, Heap.resetMetrics.
  destruct (Heap.new_metrics (Heap.heap s)) as [h l]. cbn [fst snd] in Hg.
  heap_fields. apply view_at_graph. eauto 6.
Qed.

Lemma calculateRequestsPerMinute_view now s m :
  Heap.view s = Some m →
  Heap.calculateRequestsPerMinute now s ≫= Heap.view
  = Some (calculateRequestsPerMinute now m).
Proof.
  intros (lrq & lpf & lrr & lt & ts & Hg)%view_at_graph.
  pose proof (graph_distinct _ _ _ _ _ _ _ _ Hg) as (?&?&?&?&?&?&?&?&?&?).
  pose proof (graph_bound _ _ _ _ _ _ _ _ Hg) as (?&?&?&?&?).
  destruct Hg as [G1 G2 G3 G4 G5].
  destruct s as [h l]. cbn [Heap.heap Heap.metrics] in *.
  unfold Heap.calculateRequestsPerMinute. heap_fields.
  heap_lookup. rewrite G1. heap_step.
  heap_lookup. rewrite G5. heap_step.
  heap_lookup. rewrite G2. heap_step.
  apply view_at_graph. exists lrq, lpf, lrr, lt, ts.
  unfold calculateRequestsPerMinute.
  split; heap_fields; heap_lookup; first [reflexivity | eassumption].
Qed.

Lemma graph_alloc h l m lrq lpf lrr lt ts o :
  Heap.graph h l m lrq lpf lrr lt ts →
  Heap.graph (h ++ [o]) l m lrq lpf lrr lt ts.
Proof.
  intros Hg. pose proof (graph_bound _ _ _ _ _ _ _ _ Hg) as (?&?&?&?&?).
  destruct Hg as [G1 G2 G3 G4 G5].
  split; heap_lookup; assumption.
Qed.

Lemma graph_snapshot h l m lrq lpf lrr lt ts iso :
  Heap.graph h l m lrq lpf lrr lt ts →
  Heap.graph (h ++ [Heap.OMetrics lrq lpf lrr (Some iso)]) (length h) m
    lrq lpf lrr lt (Some iso).
Proof.
  intros Hg. pose proof (graph_bound _ _ _ _ _ _ _ _ Hg) as (?&?&?&?&?).
  destruct Hg as [G1 G2 G3 G4 G5].
  split; heap_lookup; first [reflexivity | assumption].
Qed.

Lemma graph_assign_new h l m lrq lpf lrr lt ts o o' :
  Heap.graph h l m lrq lpf lrr lt ts →
  Heap.graph (<[length h := o']> (h ++ [o])) l m lrq lpf lrr lt ts.
Proof.
  intros Hg. pose proof (graph_bound _ _ _ _ _ _ _ _ Hg) as (?&?&?&?&?).
  destruct Hg as [G1 G2 G3 G4 G5].
  split; heap_lookup; assumption.
Qed.

(** ** Snapshots *)

(** C6, as stated, fails: the object returned by [getMetrics] refers to the
    store's own [performance] object and [recentRequests] array.  On a store
    that has served one request in 100 ms, a client that pushes 60000 onto
    [responseTimes] of the snapshot turns the verdict after the next
    100 ms request from healthy to unhealthy, and a client that empties
    [recentRequests] of the snapshot turns the next requests-per-minute
    count from 1 to 0. *)
Lemma snapshot_shares_live_buffers :
  ('(s, snap) ← served_once; next_verdict s) = Some true
  ∧ ('(s, snap) ← served_once;
     s' ← Heap.client_push_time snap 60000 s; next_verdict s') = Some false
  ∧ ('(s, snap) ← served_once; next_rate s) = Some 1
  ∧ ('(s, snap) ← served_once;
     s' ← Heap.client_clear_recent snap s; next_rate s') = Some 0.
Proof. by vm_compute. Qed.

(** C6, amended.  On a store whose metrics are [m], [getMetrics] succeeds
    and returns a new object; the store's metrics are unchanged and no
    existing object is modified; the metrics read through the returned
    object are [m] and its timestamp is the clock's; the copy is one level
    deep: the returned object holds the same references to [requests],
    [performance] and [recentRequests] as [this.metrics], so that only
    assignments to the fields of the returned object itself are certain to
    leave the store's metrics as they are. *)
Theorem getMetrics_copies_one_level (s : Heap.store) (m : Metrics) (iso : string) :
  Heap.view s = Some m →
  fst (getMetrics iso m) = m ∧ snd (getMetrics iso m) = iso ∧
  ∃ s' snap,
    Heap.getMetrics iso s = Some (s', snap)
    ∧ Heap.heap s !! snap = None
    ∧ (∀ j o, Heap.heap s !! j = Some o → Heap.heap s' !! j = Some o)
    ∧ Heap.metrics s' = Heap.metrics s
    ∧ Heap.view s' = Some m
    ∧ Heap.view_at (Heap.heap s') snap = Some m
    ∧ (∃ lrq lpf lrr ts,
         Heap.read_metrics (Heap.heap s') (Heap.metrics s') = Some (lrq, lpf, lrr, ts)
         ∧ Heap.read_metrics (Heap.heap s') snap = Some (lrq, lpf, lrr, Some iso))
    ∧ ∀ o, Heap.view (Heap.client_assign snap o s') = Some m.
Proof.
  intros (lrq & lpf & lrr & lt & ts & Hg)%view_at_graph.
  split; [done|]. split; [done|].
  pose proof (graph_bound _ _ _ _ _ _ _ _ Hg) as (?&?&?&?&?).
  destruct s as [h l]. cbn [Heap.heap Heap.metrics] in *.
  exists {| Heap.heap := h ++ [Heap.OMetrics lrq lpf lrr (Some iso)]; Heap.metrics := l |},
         (length h).
  unfold Heap.view, Heap.client_assign. heap_fields.
  repeat apply conj.
  - unfold Heap.getMetrics, Heap.alloc. heap_fields.
    heap_lookup. by rewrite (Heap.graph_metrics _ _ _ _ _ _ _ _ Hg).
  - by apply lookup_ge_None.
  - intros j o Hj. rewrite lookup_app_l; [done|]. by eapply lookup_lt_Some.
  - reflexivity.
  - apply view_at_graph. exists lrq, lpf, lrr, lt, ts.
    exact (graph_alloc _ _ _ _ _ _ _ _ _ Hg).
  - apply view_at_graph. exists lrq, lpf, lrr, lt, (Some iso).
    exact (graph_snapshot _ _ _ _ _ _ _ _ _ Hg).
  - exists lrq, lpf, lrr, ts. split; heap_lookup.
    + by rewrite (Heap.graph_metrics _ _ _ _ _ _ _ _ Hg).
    + done.
  - intros o. apply view_at_graph. exists lrq, lpf, lrr, lt, ts.
    exact (graph_assign_new _ _ _ _ _ _ _ _ _ _ Hg).
Qed.

Lemma getMetrics_copies_one_level_witness :
  fst (getMetrics "2025-01-01T00:00:00.000Z" constructor) = constructor
  ∧ snd (getMetrics "2025-01-01T00:00:00.000Z" constructor) = "2025-01-01T00:00:00.000Z"
  ∧ ∃ s' snap,
    Heap.getMetrics "2025-01-01T00:00:00.000Z" Heap.constructor = Some (s', snap)
    ∧ Heap.heap Heap.constructor !! snap = None
    ∧ (∀ j o, Heap.heap Heap.constructor !! j = Some o → Heap.heap s' !! j = Some o)
    ∧ Heap.metrics s' = Heap.metrics Heap.constructor
    ∧ Heap.view s' = Some constructor
    ∧ Heap.view_at (Heap.heap s') snap = Some constructor
    ∧ (∃ lrq lpf lrr ts,
         Heap.read_metrics (Heap.heap s') (Heap.metrics s') = Some (lrq, lpf, lrr, ts)
         ∧ Heap.read_metrics (Heap.heap s') snap
           = Some (lrq, lpf, lrr, Some "2025-01-01T00:00:00.000Z"))
    ∧ ∀ o, Heap.view (Heap.client_assign snap o s') = Some constructor.
Proof.
  apply (getMetrics_copies_one_level Heap.constructor constructor).
  reflexivity.
Defined.

(** ** Reset *)

(** C9.  [resetMetrics] leaves the metrics the constructor creates: all
    counters 0, both arrays empty, [minResponseTime] back to [Infinity] and
    [maxResponseTime] to 0; on the heap it does so whatever the store held;
    and a [recordRequest] after it gives the metrics that the same call
    gives on a new store. *)
Theorem resetMetrics_is_new_store (m : Metrics) (s : Heap.store) (d : RequestData) :
  resetMetrics m = constructor
  ∧ requests (resetMetrics m) = {| total := 0; success := 0; errors := 0;
                                   perMinute := 0; peakRPM := 0 |}
  ∧ responseTimes (performance (resetMetrics m)) = []
  ∧ recentRequests (resetMetrics m) = []
  ∧ averageResponseTime (performance (resetMetrics m)) = 0
  ∧ minResponseTime (performance (resetMetrics m)) = Infinity
  ∧ maxResponseTime (performance (resetMetrics m)) = 0
  ∧ recordRequest (resetMetrics m) d = recordRequest constructor d
  ∧ Heap.view (Heap.resetMetrics s) = Heap.view Heap.constructor
  ∧ Heap.view (Heap.resetMetrics s) = Some (resetMetrics m)
  ∧ Heap.recordRequest (Heap.resetMetrics s) d ≫= Heap.view
    = Heap.recordRequest Heap.constructor d ≫= Heap.view
  ∧ Heap.recordRequest (Heap.resetMetrics s) d ≫= Heap.view
    = Some (recordRequest constructor d).
Proof.
  repeat split.
  - by rewrite resetMetrics_view.
  - by rewrite resetMetrics_view.
  - by rewrite !(recordRequest_view _ d constructor)
      by first [apply resetMetrics_view | apply constructor_view].
  - apply recordRequest_view, resetMetrics_view.
Qed.

(** * Further properties

    Properties of the store, of the objects it hands out and of the
    middleware that feeds it, beyond the ones above. *)

(** ** Counters and buffers *)

Lemma count_request_counts rq d :
  total (count_request rq d) = total rq + 1
  ∧ success (count_request rq d)
    = success rq + Z.of_nat (length (filter (λ d, 200 ≤ statusCode d ≤ 399) [d]))
  ∧ errors (count_request rq d)
    = errors rq + Z.of_nat (length (filter (λ d, ¬ 200 ≤ statusCode d ≤ 399) [d])).
Proof.
  unfold count_request, isSuccess. cbn [total success errors].
  split; [done|].
  destruct (decide (200 ≤ statusCode d ≤ 399)) as [Hs|Hs].
  - rewrite (filter_cons_True _ d) by done.
    rewrite (filter_cons_False _ d) by tauto.
    replace ((200 <=? statusCode d) && (statusCode d <? 400)) with true; [simpl; lia|].
    symmetry. apply andb_true_iff. rewrite Z.leb_le, Z.ltb_lt. lia.
  - rewrite (filter_cons_False _ d) by done.
    rewrite (filter_cons_True _ d) by done.
    replace ((200 <=? statusCode d) && (statusCode d <? 400)) with false; [simpl; lia|].
    symmetry. apply andb_false_iff. rewrite Z.leb_gt, Z.ltb_ge. lia.
Qed.

(** X1.  Starting from any state, a sequence of [recordRequest] calls adds
    the number of calls to [total], the number of calls with a status code
    in 200..399 to [success] and the number of all other calls to [errors]. *)
Theorem recordRequest_counts_calls (m : Metrics) (ds : list RequestData) :
  let m' := fold_left recordRequest ds m in
  total (requests m') = total (requests m) + Z.of_nat (length ds)
  ∧ success (requests m')
    = success (requests m)
      + Z.of_nat (length (filter (λ d, 200 ≤ statusCode d ≤ 399) ds))
  ∧ errors (requests m')
    = errors (requests m)
      + Z.of_nat (length (filter (λ d, ¬ 200 ≤ statusCode d ≤ 399) ds)).
Proof.
  cbv zeta. induction ds as [|d ds IH] using rev_ind.
  - simpl. lia.
  - rewrite fold_left_app. cbn [fold_left].
    rewrite !filter_app, !length_app.
    destruct IH as (IH1 & IH2 & IH3).
    destruct (count_request_counts (requests (fold_left recordRequest ds m)) d)
      as (H1 & H2 & H3).
    cbn [recordRequest requests]. rewrite H1, H2, H3, IH1, IH2, IH3.
    cbn [length]. lia.
Qed.

Lemma push_time_length l t :
  length (push_time l t) = ((length l + 1) `min` 1000)%nat.
Proof.
  unfold push_time, slice_last. rewrite length_app. cbn [length].
  destruct (Nat.ltb_spec 1000 (length l + 1)).
  - rewrite length_drop, length_app. cbn [length]. lia.
  - rewrite length_app. cbn [length]. lia.
Qed.

Lemma unshift_recent_length rs r :
  length (unshift_recent rs r) = ((length rs + 1) `min` 50)%nat.
Proof.
  unfold unshift_recent, slice_first. cbn [length].
  destruct (Nat.ltb_spec 50 (S (length rs))).
  - rewrite length_take. cbn [length]. lia.
  - cbn [length]. lia.
Qed.

Lemma unshift_recent_head rs r : head (unshift_recent rs r) = Some r.
Proof. unfold unshift_recent, slice_first. by destruct (_ <? _)%nat. Qed.

(** X2.  Whatever the buffers held, after [recordRequest] the response times
    are the old ones followed by the new one, cut to the last 1000, and the
    recent requests are the new entry followed by the old ones, cut to the
    first 50. *)
Theorem recordRequest_cuts_buffers (m : Metrics) (d : RequestData) :
  let m' := recordRequest m d in
  let times := responseTimes (performance m) in
  let times' := responseTimes (performance m') in
  length times' = ((length times + 1) `min` 1000)%nat
  ∧ times' `suffix_of` times ++ [responseTime d]
  ∧ last times' = Some (responseTime d)
  ∧ length (recentRequests m') = ((length (recentRequests m) + 1) `min` 50)%nat
  ∧ recentRequests m' `prefix_of` recentRequest_of d :: recentRequests m
  ∧ head (recentRequests m') = Some (recentRequest_of d).
Proof.
  cbv zeta. cbn [recordRequest performance responseTimes recentRequests].
  repeat apply conj.
  - apply push_time_length.
  - unfold push_time, slice_last. destruct (_ <? _)%nat; [apply suffix_drop|done].
  - unfold push_time, slice_last. rewrite length_app. cbn [length].
    destruct (Nat.ltb_spec 1000 (length (responseTimes (performance m)) + 1)).
    + rewrite drop_app_le by lia. apply last_snoc.
    + apply last_snoc.
  - apply unshift_recent_length.
  - unfold unshift_recent, slice_first. destruct (_ <? _)%nat; [apply prefix_take|done].
  - apply unshift_recent_head.
Qed.

Lemma Forall_push_time (P : Z → Prop) l t :
  Forall P l → P t → Forall P (push_time l t).
Proof.
  intros Hl Ht. unfold push_time, slice_last.
  destruct (_ <? _)%nat; [apply Forall_drop|]; apply Forall_app; auto.
Qed.

Lemma unshift_recent_nonempty rs r : unshift_recent rs r ≠ [].
Proof. unfold unshift_recent, slice_first. by destruct (_ <? _)%nat. Qed.

Lemma recordRequest_store_invariant m d :
  store_invariant m → store_invariant (recordRequest m d).
Proof.
  intros (Hs & He & Ht & Hrate & Hpeak & Hrec & Htimes & Hmin).
  unfold store_invariant.
  cbn [recordRequest requests performance recentRequests responseTimes
       averageResponseTime minResponseTime maxResponseTime
       count_request total success errors perMinute peakRPM].
  rewrite push_time_length, unshift_recent_length.
  repeat apply conj; try lia; try (destruct (isSuccess (statusCode d)); lia).
  unfold update_min, update_max.
  destruct (minResponseTime (performance m)) as [mn|]; cbn [js_lt].
  - destruct Hmin as (Hpos & Hne & Hrne & Hall & Havg & Hmx).
    assert (Hwide : ∀ lo hi, lo ≤ mn → maxResponseTime (performance m) ≤ hi →
              lo ≤ responseTime d ≤ hi →
              Forall (λ x, lo ≤ x ≤ hi)
                (push_time (responseTimes (performance m)) (responseTime d))).
    { intros lo hi Hlo Hhi Hd. apply Forall_push_time; [|done].
      eapply Forall_impl; [exact Hall|]. intros x Hx. simpl in Hx. lia. }
    destruct (Z.ltb_spec (responseTime d) mn),
             (Z.ltb_spec (maxResponseTime (performance m)) (responseTime d));
      (repeat apply conj;
       [lia | apply push_time_nonempty | apply unshift_recent_nonempty
       | apply Hwide; lia | done | lia]).
  - destruct Hmin as (Hz & Htl & Hrl & Havg & Hmx). rewrite Htl, Hmx.
    repeat apply conj; [lia|apply push_time_nonempty|apply unshift_recent_nonempty
                        | |done|].
    + apply Forall_push_time; [constructor|].
      destruct (Z.ltb_spec 0 (responseTime d)); lia.
    + destruct (Z.ltb_spec 0 (responseTime d)); lia.
Qed.

Lemma length_filter_le {A} (P : A → Prop) `{∀ x, Decision (P x)} (l : list A) :
  (length (filter P l) ≤ length l)%nat.
Proof. apply sublist_length, sublist_filter. Qed.

Lemma step_store_invariant m o : store_invariant m → store_invariant (step m o).
Proof.
  destruct o; try done.
  - apply recordRequest_store_invariant.
  - intros (Hs & He & Ht & Hrate & Hpeak & Hrec & Htimes & Hmin).
    unfold store_invariant.
    cbn [step calculateRequestsPerMinute requests performance recentRequests
         set_perMinute total success errors perMinute peakRPM].
    pose proof (length_filter_le (λ r, inLastMinute now r = true) (recentRequests m)).
    repeat apply conj; try done; try lia;
      destruct (Z.ltb_spec (peakRPM (requests m))
        (Z.of_nat (length (filter (λ r, inLastMinute now r = true) (recentRequests m)))));
      lia.
  - intros _. unfold store_invariant. simpl. repeat apply conj; (lia || done).
Qed.

Lemma run_store_invariant os : store_invariant (run os).
Proof.
  apply (fold_left_invariant step store_invariant).
  - intros s o. apply step_store_invariant.
  - unfold store_invariant. simpl. repeat apply conj; (lia || done).
Qed.




(** X4.  After any sequence of operations the response-time buffer holds at
    most 1000 samples and the recent requests at most 50, and
    [0 ≤ perMinute ≤ peakRPM ≤ 50]: the rate is counted over the recent
    requests and cannot exceed their capacity. *)
Theorem buffers_and_rate_bounded (os : list op) :
  let m := run os in
  (length (responseTimes (performance m)) ≤ 1000)%nat
  ∧ (length (recentRequests m) ≤ 50)%nat
  ∧ 0 ≤ perMinute (requests m) ≤ peakRPM (requests m)
  ∧ peakRPM (requests m) ≤ 50.
Proof.
  cbv zeta. destruct (run_store_invariant os) as (_ & _ & _ & H1 & H2 & H3 & H4 & _).
  auto.
Qed.

(** X5.  When every recorded request is at most 60 seconds old,
    [calculateRequestsPerMinute] reports their number up to 50 and 50 for
    any larger number. *)
Theorem perMinute_saturates_at_50 (ds : list RequestData) (now : Z) :
  Forall (λ d, NotOlderThanMinute now (recentRequest_of d)) ds →
  perMinute (requests (calculateRequestsPerMinute now (record_all ds)))
  = Z.of_nat (length ds `min` 50).
Proof.
  intros Hall. simpl. f_equal.
  rewrite (counts_filter_length now _ (length (recentRequests (record_all ds)))).
  - rewrite recentRequests_record_all, length_take, length_reverse, length_fmap. lia.
  - apply counts_all. rewrite recentRequests_record_all.
    apply Forall_take. rewrite Forall_reverse, Forall_fmap. exact Hall.
Qed.

Lemma perMinute_saturates_at_50_witness :
  perMinute (requests (calculateRequestsPerMinute 30000
    (record_all (replicate 60 (request 200 10))))) = 50.
Proof.
  apply (perMinute_saturates_at_50 (replicate 60 (request 200 10)) 30000).
  apply Forall_replicate. exists 0. split; [reflexivity|lia].
Defined.

(** ** Metrics for a period *)

Lemma filter_length_mono {A} (P Q : A → Prop)
    `{∀ x, Decision (P x)} `{∀ x, Decision (Q x)} (l : list A) :
  (∀ x, P x → Q x) → (length (filter P l) ≤ length (filter Q l))%nat.
Proof.
  intros HPQ. induction l as [|x l IH]; [done|].
  destruct (decide (P x)) as [HP|HP].
  - rewrite (filter_cons_True P) by done.
    rewrite (filter_cons_True Q) by auto. simpl. lia.
  - rewrite (filter_cons_False P) by done.
    destruct (decide (Q x)).
    + rewrite (filter_cons_True Q) by done. simpl. lia.
    + by rewrite (filter_cons_False Q).
Qed.

Lemma new_Date_valid value :
  - max_time ≤ value ≤ max_time → new_Date value = Some value.
Proof.
  intros Hv. unfold new_Date.
  destruct (Z.leb_spec (- max_time) value), (Z.leb_spec value max_time);
    simpl; (done || lia).
Qed.

Lemma new_Date_invalid value :
  value < - max_time ∨ max_time < value → new_Date value = None.
Proof.
  intros Hv. unfold new_Date.
  destruct (Z.leb_spec (- max_time) value), (Z.leb_spec value max_time);
    simpl; (done || lia).
Qed.

Lemma inPeriod_invalid now minutes r :
  now + max_time < minutes * 60000 → inPeriod now minutes r = false.
Proof.
  intros Hlong. unfold inPeriod.
  rewrite new_Date_invalid by lia. by destruct (rr_timestamp r).
Qed.

Lemma inPeriod_minute now r :
  0 ≤ now ≤ max_time → inPeriod now 1 r = inLastMinute now r.
Proof.
  intros Hnow. unfold inPeriod, inLastMinute.
  rewrite new_Date_valid by (unfold max_time in *; lia).
  by destruct (rr_timestamp r).
Qed.

Lemma inPeriod_mono now minutes minutes' r :
  0 ≤ now ≤ max_time → 0 ≤ minutes ≤ minutes' → minutes' * 60000 ≤ now + max_time →
  inPeriod now minutes r = true → inPeriod now minutes' r = true.
Proof.
  unfold inPeriod. intros Hnow Hm Hvalid.
  rewrite !new_Date_valid by lia.
  destruct (rr_timestamp r); [|done].
  rewrite !Z.leb_le. lia.
Qed.

Lemma filter_ext_length {A} (f g : A → bool) (l : list A) :
  (∀ x, f x = g x) →
  length (filter (λ x, f x = true) l) = length (filter (λ x, g x = true) l).
Proof.
  intros Hfg. induction l as [|x l IH]; [done|].
  destruct (g x) eqn:Hg.
  - rewrite !filter_cons_True by (by rewrite ?Hfg). simpl. by rewrite IH.
  - rewrite !filter_cons_False by (by rewrite ?Hfg, Hg). done.
Qed.

Lemma filter_none {A} (f : A → bool) (l : list A) :
  (∀ x, f x = false) → filter (λ x, f x = true) l = [].
Proof.
  intros Hf. induction l as [|x l IH]; [done|].
  rewrite filter_cons_False; [done|]. by rewrite Hf.
Qed.

(** X6.  At a time [now] between the epoch and the last valid date, and
    for periods that begin at a valid date ([minutes' * 60000] is at most
    [now + 8.64e15]): [getMetricsForPeriod(1)] counts the requests that
    [calculateRequestsPerMinute] counts at the same time; a longer period
    does not report fewer requests, and no period reports more requests
    than [recentRequests] holds.  A period so long that it begins before the
    first valid date reports 0 requests and rate 100, whatever the store
    holds. *)
Theorem getMetricsForPeriod_requests
    (m : Metrics) (now : Z) (iso : string) (minutes minutes' : Z) :
  0 ≤ now ≤ max_time →
  0 ≤ minutes ≤ minutes' →
  minutes' * 60000 ≤ now + max_time →
  ps_requests (getMetricsForPeriod now iso 1 m)
  = perMinute (requests (calculateRequestsPerMinute now m))
  ∧ ps_requests (getMetricsForPeriod now iso minutes m)
    ≤ ps_requests (getMetricsForPeriod now iso minutes' m)
  ∧ ps_requests (getMetricsForPeriod now iso minutes' m)
    ≤ Z.of_nat (length (recentRequests m))
  ∧ (∀ long, now + max_time < long * 60000 →
       ps_requests (getMetricsForPeriod now iso long m) = 0
       ∧ ps_successRate (getMetricsForPeriod now iso long m) = 100).
Proof.
  intros Hnow Hm Hvalid.
  cbn [getMetricsForPeriod ps_requests ps_successRate calculateRequestsPerMinute
       requests set_perMinute perMinute].
  repeat apply conj.
  - f_equal. apply filter_ext_length. intros r. by apply inPeriod_minute.
  - apply Nat2Z.inj_le, filter_length_mono. intros r. by apply inPeriod_mono.
  - apply Nat2Z.inj_le, length_filter_le.
  - intros long Hlong.
    by rewrite (filter_none (inPeriod now long))
      by (intros r; by apply inPeriod_invalid).
Qed.

Lemma getMetricsForPeriod_requests_witness :
  ps_requests (getMetricsForPeriod 30000 "2025-01-01T00:00:30.000Z" 1
                 (record_all [request 200 10; request 500 20]))
  = perMinute (requests (calculateRequestsPerMinute 30000
                 (record_all [request 200 10; request 500 20])))
  ∧ ps_requests (getMetricsForPeriod 30000 "2025-01-01T00:00:30.000Z" 1
                 (record_all [request 200 10; request 500 20]))
    ≤ ps_requests (getMetricsForPeriod 30000 "2025-01-01T00:00:30.000Z" 5
                 (record_all [request 200 10; request 500 20]))
  ∧ ps_requests (getMetricsForPeriod 30000 "2025-01-01T00:00:30.000Z" 5
                 (record_all [request 200 10; request 500 20]))
    ≤ Z.of_nat (length (recentRequests (record_all [request 200 10; request 500 20])))
  ∧ (∀ long, 30000 + max_time < long * 60000 →
       ps_requests (getMetricsForPeriod 30000 "2025-01-01T00:00:30.000Z" long
                      (record_all [request 200 10; request 500 20])) = 0
       ∧ ps_successRate (getMetricsForPeriod 30000 "2025-01-01T00:00:30.000Z" long
                           (record_all [request 200 10; request 500 20])) = 100).
Proof.
  apply (getMetricsForPeriod_requests
           (record_all [request 200 10; request 500 20]) 30000 _ 1 5);
    unfold max_time; lia.
Defined.

(** A period of 2^48 minutes begins before the first valid date: the two
    requests that the period of one minute reports are not reported. *)
Example getMetricsForPeriod_too_long :
  let m := record_all [request 200 10; request 500 20] in
  ps_requests (getMetricsForPeriod 30000 "2025-01-01T00:00:30.000Z" 1 m) = 2
  ∧ ps_requests (getMetricsForPeriod 30000 "2025-01-01T00:00:30.000Z" (2 ^ 48) m) = 0.
Proof. by vm_compute. Qed.

Ltac status_arith := rewrite ?andb_true_iff, ?Z.leb_le, ?Z.ltb_lt; lia.

Lemma status_partition (l : list RecentRequest) :
  (length (filter (λ r, isSuccess (rr_statusCode r) = true) l)
   + length (filter (λ r, (400 <=? rr_statusCode r)%Z = true) l)
   + length (filter (λ r, (rr_statusCode r < 200)%Z) l))%nat
  = length l.
Proof.
  induction l as [|r l IH]; [done|].
  unfold isSuccess in *.
  destruct (Z.lt_ge_cases (rr_statusCode r) 200) as [Hlow|H2];
    [|destruct (Z.lt_ge_cases (rr_statusCode r) 400) as [H4|H4]].
  - rewrite (filter_cons_False (λ r, _ && _ = true)) by status_arith.
    rewrite (filter_cons_False (λ r, (400 <=? _) = true)) by status_arith.
    rewrite (filter_cons_True (λ r, _ < 200)) by status_arith.
    cbn [length]. lia.
  - rewrite (filter_cons_True (λ r, _ && _ = true)) by status_arith.
    rewrite (filter_cons_False (λ r, (400 <=? _) = true)) by status_arith.
    rewrite (filter_cons_False (λ r, _ < 200)) by status_arith.
    cbn [length]. lia.
  - rewrite (filter_cons_False (λ r, _ && _ = true)) by status_arith.
    rewrite (filter_cons_True (λ r, (400 <=? _) = true)) by status_arith.
    rewrite (filter_cons_False (λ r, _ < 200)) by status_arith.
    cbn [length]. lia.
Qed.

(** X7.  In the result of [getMetricsForPeriod], [success] and [errors]
    leave out the requests of the period whose status code is below 200:
    [success + errors] plus their number is [requests].  [recordRequest]
    counts such a request as an error; after one request with status 100
    the store has 1 error and the period has 1 request and 0 errors. *)
Theorem getMetricsForPeriod_leaves_out_below_200
    (m : Metrics) (now : Z) (iso : string) (minutes : Z) :
  (let p := getMetricsForPeriod now iso minutes m in
   ps_success p + ps_errors p
   + Z.of_nat (length (filter (λ r, rr_statusCode r < 200)
                         (filter (λ r, inPeriod now minutes r = true) (recentRequests m))))
   = ps_requests p)
  ∧ (let m1 := record_all [request 100 10] in
     let p := getMetricsForPeriod 30000 iso 5 m1 in
     errors (requests m1) = 1 ∧ ps_requests p = 1 ∧ ps_errors p = 0 ∧ ps_success p = 0).
Proof.
  split; [|done].
  cbn [getMetricsForPeriod ps_success ps_errors ps_requests].
  pose proof (status_partition
    (filter (λ r, inPeriod now minutes r = true) (recentRequests m))) as Hp.
  lia.
Qed.

(** ** The success rate *)




(** ** The stored client address *)

Lemma substring_prefix (n : nat) (s : string) :
  ∃ rest, s = String.substring 0 n s +:+ rest
          ∧ String.length (String.substring 0 n s) = (n `min` String.length s)%nat
          ∧ String.length rest = (String.length s - n)%nat.
Proof.
  revert s. induction n as [|n IH]; intros s.
  - exists s. by destruct s.
  - destruct s as [|c s]; [by exists ""|].
    destruct (IH s) as (rest & Hs & Hl & Hr).
    exists rest. cbn [String.substring String.length].
    split; [|split; lia].
    change (String c s = String c (String.substring 0 n s +:+ rest)).
    by rewrite <- Hs.
Qed.

(** X9.  The entry that [recordRequest] puts first in [recentRequests]
    copies method, path, status code, response time and timestamp of the
    call, and stores as [ip] the first 10 characters of the client address
    followed by three dots: an address of at most 10 characters is stored
    whole, and an absent one as the text "undefined...". *)
Theorem recordRequest_stores_truncated_ip (m : Metrics) (d : RequestData) :
  ∃ r, head (recentRequests (recordRequest m d)) = Some r
    ∧ rr_method r = method d ∧ rr_path r = path d
    ∧ rr_statusCode r = statusCode d ∧ rr_responseTime r = responseTime d
    ∧ rr_timestamp r = timestamp d
    ∧ match ip d with
      | None => rr_ip r = "undefined..."
      | Some s =>
          ∃ p rest, s = p +:+ rest
            ∧ String.length p = (10 `min` String.length s)%nat
            ∧ String.length rest = (String.length s - 10)%nat
            ∧ rr_ip r = p +:+ "..."
      end.
Proof.
  exists (recentRequest_of d).
  repeat apply conj; try done; [apply unshift_recent_head|].
  unfold recentRequest_of, truncate_ip. cbn [rr_ip].
  destruct (ip d) as [s|]; [|done].
  destruct (substring_prefix 10 s) as (rest & Hs & Hl & Hr).
  by exists (String.substring 0 10 s), rest.
Qed.

(** ** Snapshots over time *)

Lemma recordRequest_graph_frame s d m lrq lpf lrr lt ts :
  Heap.graph (Heap.heap s) (Heap.metrics s) m lrq lpf lrr lt ts →
  ∃ s' lrr' lt',
    Heap.recordRequest s d = Some s' ∧ Heap.metrics s' = Heap.metrics s
    ∧ Heap.graph (Heap.heap s') (Heap.metrics s') (recordRequest m d) lrq lpf lrr' lt' ts
    ∧ (lrr' = lrr ∨ length (Heap.heap s) ≤ lrr')%nat
    ∧ (lt' = lt ∨ length (Heap.heap s) ≤ lt')%nat
    ∧ Heap.heap s' !! lrr
      = Some (Heap.ORecords (recentRequest_of d :: recentRequests m))
    ∧ (∀ j o, j ≠ Heap.metrics s → j ≠ lrq → j ≠ lpf → j ≠ lrr → j ≠ lt →
         Heap.heap s !! j = Some o → Heap.heap s' !! j = Some o).
Proof.
  intros Hg. pose proof (graph_distinct _ _ _ _ _ _ _ _ Hg) as (?&?&?&?&?&?&?&?&?&?).
  pose proof (graph_bound _ _ _ _ _ _ _ _ Hg) as (?&?&?&?&?).
  destruct Hg as [G1 G2 G3 G4 G5].
  destruct s as [h l]. cbn [Heap.heap Heap.metrics] in *.
  unfold Heap.recordRequest, Heap.alloc. cbn [Heap.heap Heap.metrics].
  heap_lookup. rewrite G1. heap_step.
  heap_lookup. rewrite G2. heap_step.
  heap_lookup. rewrite G3. heap_step.
  heap_lookup. rewrite G4. heap_step.
  destruct (1000 <? length (responseTimes (performance m) ++ [responseTime d]))%nat eqn:Hc1;
    heap_lookup; heap_step; heap_lookup; rewrite G5; heap_step;
    cbn [length];
    destruct (50 <? S (length (recentRequests m)))%nat eqn:Hc2;
    [ exists_store (length h + 1)%nat (length h)
    | exists_store lrr (length h)
    | exists_store (length h) lt
    | exists_store lrr lt ];
    unfold recordRequest, push_time, unshift_recent; cbn [length]; rewrite Hc1, Hc2;
    split.
  all: try heap_fields.
  1,3,5,7: (split; heap_fields; heap_lookup;
            first [reflexivity | eassumption | do 2 f_equal; heap_len]).
  all: (split; [first [left; reflexivity | right; lia]|]).
  all: (split; [first [left; reflexivity | right; lia]|]).
  all: (split; [heap_lookup; first [reflexivity | eassumption]|]).
  all: intros j o ? ? ? ? ? Hj; pose proof (lookup_lt_Some _ _ _ Hj).
  all: repeat first
    [ rewrite list_lookup_insert_ne by (apply not_eq_sym; assumption)
    | rewrite lookup_app_l by heap_len ].
  all: exact Hj.
Qed.


Lemma graph_frame h h' l m lrq lpf lrr lt ts :
  Heap.graph h l m lrq lpf lrr lt ts →
  (∀ j o, h !! j = Some o → h' !! j = Some o) →
  Heap.graph h' l m lrq lpf lrr lt ts.
Proof. intros [G1 G2 G3 G4 G5] Hf. split; by apply Hf. Qed.

(** X10.  The object returned by [getMetrics] is not a picture of the
    moment: after the next [recordRequest] it shows the new [requests] and
    [performance], and its [recentRequests] is the array that was live at
    the time, with the new entry put first and without the cut to 50. *)
Theorem snapshot_follows_store
    (s : Heap.store) (m : Metrics) (iso : string) (d : RequestData) :
  Heap.view s = Some m →
  ∃ s1 snap s2,
    Heap.getMetrics iso s = Some (s1, snap)
    ∧ Heap.recordRequest s1 d = Some s2
    ∧ Heap.view s2 = Some (recordRequest m d)
    ∧ Heap.view_at (Heap.heap s2) snap
      = Some {| requests := requests (recordRequest m d);
                performance := performance (recordRequest m d);
                recentRequests := recentRequest_of d :: recentRequests m |}.
Proof.
  intros (lrq & lpf & lrr & lt & ts & Hg)%view_at_graph.
  pose proof (graph_bound _ _ _ _ _ _ _ _ Hg) as (?&?&?&?&?).
  destruct s as [h l]. cbn [Heap.heap Heap.metrics] in *.
  set (snapshot := Heap.OMetrics lrq lpf lrr (Some iso)).
  exists {| Heap.heap := h ++ [snapshot]; Heap.metrics := l |}, (length h).
  pose proof (graph_alloc _ _ _ _ _ _ _ _ snapshot Hg) as Hg1.
  destruct (recordRequest_graph_frame
              {| Heap.heap := h ++ [snapshot]; Heap.metrics := l |} d m _ _ _ _ _ Hg1)
    as (s2 & lrr' & lt' & Hrec & Hl & Hg2 & _ & _ & Hold & Hframe).
  cbn [Heap.heap Heap.metrics] in *.
  exists s2. repeat apply conj.
  - unfold Heap.getMetrics, Heap.alloc. heap_fields.
    heap_lookup. by rewrite (Heap.graph_metrics _ _ _ _ _ _ _ _ Hg).
  - exact Hrec.
  - apply view_at_graph. by exists lrq, lpf, lrr', lt', ts.
  - apply view_at_graph. exists lrq, lpf, lrr, lt', (Some iso).
    destruct Hg2 as [_ G2 G3 G4 _].
    split; try done. apply Hframe; try lia.
    subst snapshot. by rewrite list_lookup_middle.
Qed.

Lemma snapshot_follows_store_witness :
  ∃ s1 snap s2,
    Heap.getMetrics "2025-01-01T00:00:00.000Z" Heap.constructor = Some (s1, snap)
    ∧ Heap.recordRequest s1 (request 200 100) = Some s2
    ∧ Heap.view s2 = Some (recordRequest constructor (request 200 100))
    ∧ Heap.view_at (Heap.heap s2) snap
      = Some {| requests := requests (recordRequest constructor (request 200 100));
                performance := performance (recordRequest constructor (request 200 100));
                recentRequests :=
                  recentRequest_of (request 200 100) :: recentRequests constructor |}.
Proof.
  apply (snapshot_follows_store Heap.constructor constructor).
  reflexivity.
Defined.

Lemma record_from_above (N : nat) ds s m lrq lpf lrr lt ts :
  Heap.graph (Heap.heap s) (Heap.metrics s) m lrq lpf lrr lt ts →
  (N ≤ Heap.metrics s)%nat → (N ≤ lrq)%nat → (N ≤ lpf)%nat →
  (N ≤ lrr)%nat → (N ≤ lt)%nat →
  ∃ s', record_from s ds = Some s'
    ∧ Heap.view s' = Some (fold_left recordRequest ds m)
    ∧ ∀ j o, (j < N)%nat → Heap.heap s !! j = Some o → Heap.heap s' !! j = Some o.
Proof.
  revert s m lrr lt. induction ds as [|d ds IH]; intros s m lrr lt Hg Hl Hrq Hpf Hrr Hlt.
  - exists s. repeat apply conj; [done| |done].
    apply view_at_graph. by exists lrq, lpf, lrr, lt, ts.
  - pose proof (graph_bound _ _ _ _ _ _ _ _ Hg) as (?&?&?&?&?).
    destruct (recordRequest_graph_frame s d m _ _ _ _ _ Hg)
      as (s1 & lrr' & lt' & Hrec & Hl1 & Hg1 & Hrr' & Hlt' & _ & Hframe).
    destruct (IH s1 (recordRequest m d) lrr' lt' Hg1) as (s' & Hrun & Hview & Hold);
      try lia.
    exists s'. unfold record_from in *. cbn [fold_left]. heap_step.
    rewrite Hrec. repeat apply conj; [done|done|].
    intros j o Hj Hjo. apply Hold; [done|]. apply Hframe; try lia. done.
Qed.

(** X11.  [resetMetrics] does not touch what was handed out before: an
    object returned by [getMetrics] before the reset keeps showing the
    metrics of that time, whatever is recorded afterwards, while the store
    starts again from a new state. *)
Theorem snapshot_survives_reset
    (s : Heap.store) (m : Metrics) (iso : string) (ds : list RequestData) :
  Heap.view s = Some m →
  ∃ s1 snap s3,
    Heap.getMetrics iso s = Some (s1, snap)
    ∧ record_from (Heap.resetMetrics s1) ds = Some s3
    ∧ Heap.view s3 = Some (record_all ds)
    ∧ Heap.view_at (Heap.heap s3) snap = Some m.
Proof.
  intros (lrq & lpf & lrr & lt & ts & Hg)%view_at_graph.
  pose proof (graph_bound _ _ _ _ _ _ _ _ Hg) as (?&?&?&?&?).
  destruct s as [h l]. cbn [Heap.heap Heap.metrics] in *.
  set (snapshot := Heap.OMetrics lrq lpf lrr (Some iso)).
  set (s1 := {| Heap.heap := h ++ [snapshot]; Heap.metrics := l |}).
  pose proof (new_metrics_graph (Heap.heap s1)) as Hnew.
  assert (Hreset : Heap.resetMetrics s1
            = {| Heap.heap := (Heap.new_metrics (Heap.heap s1)).1;
                 Heap.metrics := (Heap.new_metrics (Heap.heap s1)).2 |}).
  { unfold Heap.resetMetrics. by destruct (Heap.new_metrics (Heap.heap s1)). }
  assert (Hkeep : ∀ j o, Heap.heap s1 !! j = Some o →
            (Heap.new_metrics (Heap.heap s1)).1 !! j = Some o).
  { intros j o Hj. pose proof (lookup_lt_Some _ _ _ Hj).
    unfold Heap.new_metrics, Heap.alloc. cbn [fst].
    repeat (rewrite lookup_app_l by heap_len). done. }
  destruct (record_from_above (length (Heap.heap s1)) ds (Heap.resetMetrics s1)
              constructor _ _ _ _ _ ltac:(rewrite Hreset; exact Hnew))
    as (s3 & Hrun & Hview & Hold);
    try (rewrite Hreset; cbn [Heap.metrics]; unfold Heap.new_metrics, Heap.alloc;
         cbn [snd]; heap_len); try lia.
  exists s1, (length h), s3. repeat apply conj.
  - unfold Heap.getMetrics, Heap.alloc. heap_fields.
    heap_lookup. by rewrite (Heap.graph_metrics _ _ _ _ _ _ _ _ Hg).
  - exact Hrun.
  - exact Hview.
  - apply view_at_graph. exists lrq, lpf, lrr, lt, (Some iso).
    apply (graph_frame (Heap.heap s1)).
    + exact (graph_snapshot _ _ _ _ _ _ _ _ iso Hg).
    + intros j o Hj. apply Hold.
      * by eapply lookup_lt_Some.
      * rewrite Hreset. cbn [Heap.heap]. by apply Hkeep.
Qed.

Lemma snapshot_survives_reset_witness :
  ∃ s1 snap s3,
    Heap.getMetrics "2025-01-01T00:00:00.000Z" Heap.constructor = Some (s1, snap)
    ∧ record_from (Heap.resetMetrics s1) [request 200 100; request 500 7] = Some s3
    ∧ Heap.view s3 = Some (record_all [request 200 100; request 500 7])
    ∧ Heap.view_at (Heap.heap s3) snap = Some constructor.
Proof.
  apply (snapshot_survives_reset Heap.constructor constructor).
  reflexivity.
Defined.

(** ** The peak rate *)

Lemma max_list_snoc l x : max_list (l ++ [x]) = Z.max (max_list l) x.
Proof.
  unfold max_list. induction l as [|y l IH]; simpl; [lia|]. rewrite IH. lia.
Qed.

Lemma run_snoc os o : run (os ++ [o]) = step (run os) o.
Proof. unfold run. by rewrite fold_left_app. Qed.

Lemma rates_snoc os o :
  rates (os ++ [o]) = rates os ++ [perMinute (requests (run (os ++ [o])))].
Proof.
  unfold rates. rewrite length_app. cbn [length].
  replace (S (length os + 1)) with (S (length os) + 1)%nat by lia.
  rewrite seq_app, fmap_app.
  f_equal.
  - apply list_fmap_ext. intros i n Hn.
    apply lookup_seq in Hn as [-> Hi].
    by rewrite take_app_le by lia.
  - simpl. by rewrite take_ge by (rewrite length_app; simpl; lia).
Qed.

Lemma last_rate_le_max os :
  perMinute (requests (run os)) ≤ max_list (rates os).
Proof.
  destruct os as [|o os] using rev_ind.
  - simpl. lia.
  - rewrite rates_snoc, max_list_snoc. lia.
Qed.

(** X12.  As long as the store is not reset, [peakRPM] is exactly the
    greatest value that [perMinute] has had so far. *)
Theorem peakRPM_is_greatest_rate (os : list op) :
  Forall (λ o, is_reset o = false) os →
  peakRPM (requests (run os)) = max_list (rates os).
Proof.
  induction os as [|o os IH] using rev_ind; intros Hnr; [reflexivity|].
  apply Forall_app in Hnr as [Hnr Ho]. apply Forall_inv in Ho. simpl in Ho.
  specialize (IH Hnr).
  pose proof (last_rate_le_max os) as Hlast.
  rewrite rates_snoc, max_list_snoc, run_snoc. rewrite <- IH.
  destruct o as [d|now|iso| | |now iso minutes]; cbn [step];
    [simpl; lia| |simpl; lia|done|lia|lia].
  cbn [calculateRequestsPerMinute requests set_perMinute peakRPM perMinute].
  destruct (Z.ltb_spec (peakRPM (requests (run os)))
    (Z.of_nat (length (filter (λ r, inLastMinute now r = true)
                         (recentRequests (run os)))))); lia.
Qed.

Lemma peakRPM_is_greatest_rate_witness :
  peakRPM (requests (run [RecordRequest (request 200 10);
                          CalculateRequestsPerMinute 30000;
                          CalculateRequestsPerMinute 90000]))
  = max_list (rates [RecordRequest (request 200 10);
                     CalculateRequestsPerMinute 30000;
                     CalculateRequestsPerMinute 90000]).
Proof.
  apply peakRPM_is_greatest_rate. repeat constructor.
Defined.

(** ** The collecting middleware *)

(** X13.  Installing the middleware records nothing.  Each later call of
    [res.end], whatever was recorded and however often the clock was read
    in between, records one request: [total] grows by 1, the status code is
    the one [res] has at that time, and the response time is the clock
    reading at the call minus the reading at installation, which is not
    negative when the clock does not go backwards. *)
Theorem metricsCollector_records_at_end
    (req req' : Req) (res : Response) (w w' : World) (code : Z) :
  end_keeps_metrics res →
  monotone_clock (w_clock w) →
  w_clock w' = w_clock w → (w_reads w < w_reads w')%nat →
  let '(res1, w1) := metricsCollector req res (λ res w, (res, w)) w in
  w_metrics w1 = w_metrics w
  ∧ res_statusCode res1 = res_statusCode res
  ∧ ∃ d, w_metrics (end_response req' (set_status code res1) w')
         = recordRequest (w_metrics w') d
      ∧ statusCode d = code
      ∧ responseTime d = w_clock w (w_reads w') - w_clock w (w_reads w)
      ∧ 0 ≤ responseTime d
      ∧ timestamp d = Some (w_clock w (S (w_reads w')))
      ∧ method d = req_method req' ∧ path d = req_path req' ∧ ip d = req_ip req'
      ∧ total (requests (w_metrics (end_response req' (set_status code res1) w')))
        = total (requests (w_metrics w')) + 1.
Proof.
  intros Hend Hmono Hclock Hreads.
  unfold metricsCollector, Date_now, end_response, set_status.
  cbn [res_statusCode res_end w_metrics w_clock w_reads].
  split; [done|]. split; [done|].
  eexists. rewrite Hend. cbn [w_metrics].
  split; [reflexivity|].
  cbn [statusCode responseTime timestamp method path ip].
  rewrite Hclock.
  pose proof (Hmono (w_reads w) (w_reads w') ltac:(lia)).
  repeat apply conj; try done; lia.
Qed.

Lemma metricsCollector_records_at_end_witness :
  let req := {| req_method := "GET"; req_path := "/status";
                req_ip := Some "127.0.0.1"; req_userAgent := None |} in
  let res := {| res_statusCode := 200; res_end := λ _ _ w, w |} in
  let w := {| w_metrics := constructor; w_clock := Z.of_nat; w_reads := 5 |} in
  let w' := {| w_metrics := record_all [request 200 3]; w_clock := Z.of_nat;
               w_reads := 12 |} in
  let '(res1, w1) := metricsCollector req res (λ res w, (res, w)) w in
  w_metrics w1 = w_metrics w
  ∧ res_statusCode res1 = res_statusCode res
  ∧ ∃ d, w_metrics (end_response req (set_status 404 res1) w')
         = recordRequest (w_metrics w') d
      ∧ statusCode d = 404
      ∧ responseTime d = w_clock w (w_reads w') - w_clock w (w_reads w)
      ∧ 0 ≤ responseTime d
      ∧ timestamp d = Some (w_clock w (S (w_reads w')))
      ∧ method d = req_method req ∧ path d = req_path req ∧ ip d = req_ip req
      ∧ total (requests (w_metrics (end_response req (set_status 404 res1) w')))
        = total (requests (w_metrics w')) + 1.
Proof.
  cbv zeta.
  apply (metricsCollector_records_at_end
           {| req_method := "GET"; req_path := "/status";
              req_ip := Some "127.0.0.1"; req_userAgent := None |}
           {| req_method := "GET"; req_path := "/status";
              req_ip := Some "127.0.0.1"; req_userAgent := None |}
           {| res_statusCode := 200; res_end := λ _ _ w, w |}
           {| w_metrics := constructor; w_clock := Z.of_nat; w_reads := 5 |}
           {| w_metrics := record_all [request 200 3]; w_clock := Z.of_nat;
              w_reads := 12 |} 404).
  - intros ? ? ?. reflexivity.
  - intros i j Hij. simpl. lia.
  - reflexivity.
  - simpl. lia.
Defined.

(** ** The window of the buffers *)

Lemma slice_last_app_ge {A} (n : nat) (l k : list A) :
  (n ≤ length k)%nat → slice_last n (l ++ k) = slice_last n k.
Proof.
  intros Hn. unfold slice_last. rewrite length_app.
  replace (length l + length k - n)%nat with (length l + (length k - n))%nat by lia.
  by rewrite drop_app_add.
Qed.

Lemma averageResponseTime_record_all d ds :
  averageResponseTime (performance (record_all (d :: ds)))
  = average (responseTimes (performance (record_all (d :: ds)))).
Proof.
  destruct (exists_last (l := d :: ds)) as (ds' & d' & ->); [done|].
  by rewrite record_all_snoc.
Qed.

(** X14.  The buffers forget: when at least 1000 requests were recorded
    after some earlier ones, the buffered response times, their average and
    the recent requests are the same as if the earlier requests had never
    been recorded (the counters, the minimum and the maximum are not). *)
Theorem buffers_forget_earlier_requests (ds1 ds2 : list RequestData) :
  (1000 ≤ length ds2)%nat →
  let m := record_all (ds1 ++ ds2) in
  let m2 := record_all ds2 in
  responseTimes (performance m) = responseTimes (performance m2)
  ∧ averageResponseTime (performance m) = averageResponseTime (performance m2)
  ∧ recentRequests m = recentRequests m2.
Proof.
  intros Hlen. cbv zeta.
  assert (Htimes : responseTimes (performance (record_all (ds1 ++ ds2)))
                   = responseTimes (performance (record_all ds2))).
  { rewrite !responseTimes_record_all, fmap_app.
    apply slice_last_app_ge. by rewrite length_fmap. }
  repeat apply conj.
  - exact Htimes.
  - destruct ds2 as [|d2 ds2]; [simpl in Hlen; lia|].
    destruct (ds1 ++ d2 :: ds2) as [|d ds] eqn:Heq; [by destruct ds1|].
    by rewrite !averageResponseTime_record_all, Htimes.
  - rewrite !recentRequests_record_all, fmap_app, reverse_app.
    apply take_app_le. rewrite length_reverse, length_fmap. lia.
Qed.

Lemma buffers_forget_earlier_requests_witness :
  let m := record_all ([request 500 5000] ++ replicate 1000 (request 200 10)) in
  let m2 := record_all (replicate 1000 (request 200 10)) in
  responseTimes (performance m) = responseTimes (performance m2)
  ∧ averageResponseTime (performance m) = averageResponseTime (performance m2)
  ∧ recentRequests m = recentRequests m2.
Proof.
  apply (buffers_forget_earlier_requests [request 500 5000]
           (replicate 1000 (request 200 10))).
  rewrite length_replicate. lia.
Defined.

(** ** Writes through a snapshot *)

(** X15.  What a client writes through the object returned by [getMetrics]
    is written to the store: pushing a number onto its
    [performance.responseTimes] appends that number to the store's
    response times, and emptying its [recentRequests] empties the store's
    recent requests; the rest of the metrics stays as it is. *)
Theorem snapshot_writes_reach_store
    (s : Heap.store) (m : Metrics) (iso : string) (x : Z) :
  Heap.view s = Some m →
  ∃ s1 snap s2 s3,
    Heap.getMetrics iso s = Some (s1, snap)
    ∧ Heap.client_push_time snap x s1 = Some s2
    ∧ Heap.view s2
      = Some {| requests := requests m;
                performance :=
                  {| responseTimes := responseTimes (performance m) ++ [x];
                     averageResponseTime := averageResponseTime (performance m);
                     minResponseTime := minResponseTime (performance m);
                     maxResponseTime := maxResponseTime (performance m) |};
                recentRequests := recentRequests m |}
    ∧ Heap.client_clear_recent snap s1 = Some s3
    ∧ Heap.view s3
      = Some {| requests := requests m; performance := performance m;
                recentRequests := [] |}.
Proof.
  intros (lrq & lpf & lrr & lt & ts & Hg)%view_at_graph.
  pose proof (graph_distinct _ _ _ _ _ _ _ _ Hg) as (?&?&?&?&?&?&?&?&?&?).
  pose proof (graph_bound _ _ _ _ _ _ _ _ Hg) as (?&?&?&?&?).
  destruct Hg as [G1 G2 G3 G4 G5].
  destruct s as [h l]. cbn [Heap.heap Heap.metrics] in *.
  set (snapshot := Heap.OMetrics lrq lpf lrr (Some iso)).
  exists {| Heap.heap := h ++ [snapshot]; Heap.metrics := l |}, (length h).
  eexists _, _. repeat apply conj.
  - unfold Heap.getMetrics, Heap.alloc. heap_fields. heap_lookup. by rewrite G1.
  - unfold Heap.client_push_time. heap_fields.
    heap_lookup. subst snapshot. heap_step.
    heap_lookup. rewrite G3. heap_step.
    heap_lookup. rewrite G4. heap_step. reflexivity.
  - apply view_at_graph. exists lrq, lpf, lrr, lt, ts.
    split; heap_fields; heap_lookup; first [reflexivity | assumption].
  - unfold Heap.client_clear_recent. heap_fields.
    heap_lookup. subst snapshot. heap_step.
    heap_lookup. rewrite G5. heap_step. reflexivity.
  - apply view_at_graph. exists lrq, lpf, lrr, lt, ts.
    split; heap_fields; heap_lookup; first [reflexivity | assumption].
Qed.

Lemma snapshot_writes_reach_store_witness :
  ∃ s1 snap s2 s3,
    Heap.getMetrics "2025-01-01T00:00:00.000Z" Heap.constructor = Some (s1, snap)
    ∧ Heap.client_push_time snap 60000 s1 = Some s2
    ∧ Heap.view s2
      = Some {| requests := requests constructor;
                performance :=
                  {| responseTimes := responseTimes (performance constructor) ++ [60000];
                     averageResponseTime := averageResponseTime (performance constructor);
                     minResponseTime := minResponseTime (performance constructor);
                     maxResponseTime := maxResponseTime (performance constructor) |};
                recentRequests := recentRequests constructor |}
    ∧ Heap.client_clear_recent snap s1 = Some s3
    ∧ Heap.view s3
      = Some {| requests := requests constructor;
                performance := performance constructor;
                recentRequests := [] |}.
Proof.
  apply (snapshot_writes_reach_store Heap.constructor constructor).
  reflexivity.
Defined.
